(** * restaurant-etl: the transformation pipeline of [transform.py]

    A shallow embedding of [DatabaseConnection], [DataTransformer] and
    [main], and the properties of the join, the two aggregates, the
    quality checks, the transactional save and the driver.

    Modelling conventions.
    - A DataFrame is the list of its rows, in row order; only the columns
      the program names are kept.
    - A cell is an [option]: [None] is SQL NULL (pandas None / NaN).
    - Numbers are held as pandas holds them. [total_amount], a DECIMAL
      column, comes from [read_sql] as float64: IEEE 754 binary64, here
      [spec_float] with precision 53 and maximal exponent 1024. [quantity],
      an integer column, is int64 when the column has no NULL and float64
      when it has one. The sum of a group is the one [groupby] computes:
      Kahan's compensated summation in row order for float64, addition
      modulo 2^64 for int64.
    - pandas primitives follow their documented behaviour: [merge] is an
      inner join that keeps the order of the left rows and matches null
      keys with null keys; [groupby] sorts the group keys and drops every
      row with a null in a key column; [sum] skips nulls; [head] keeps a
      prefix.  [sort_values] is called with its default algorithm, which
      promises an ordered permutation and nothing about ties, so it is a
      parameter constrained by exactly that contract.
    - The program runs in a [world]: the source tables, the target tables
      as committed and as the open transaction sees them, the two fields
      of the connection object and the trace of what the run did. What
      the outside does to a run (a refused connection, a failing query,
      a statement the server cannot take, a connection lost before the
      rollback) is an [env]; the properties hold for every [env].
    - Of the engine, the model fixes what the statements of the source
      fix: a table exists once created, a truncate empties it, and a
      second row with the primary key of a stored row is refused. Whether
      a value fits the type of its column, and how the engine converts a
      value it stores, is the engine's business: a statement it refuses
      for such a reason is a fault of the [env], and a table holds the
      rows as they were sent.
    - Python exceptions keep the state reached when they are raised, so a
      computation returns its outcome together with the world it left. *)

From Stdlib Require Import List ZArith String Bool Arith Lia Permutation Sorted.
From Stdlib Require Import SpecFloat.
From Stdlib Require OrderedTypeEx.
Import ListNotations.

Set Implicit Arguments.

(* ================================================================== *)
(** * Cells and keys                                                    *)
(* ================================================================== *)

(** A calendar date, as the driver hands [DATE] columns to pandas. *)
Record date := mkDate { year : Z; month : Z; day : Z }.

(** Values usable as join and group keys: equality that computes, and
    the order [groupby] sorts its keys by. *)
Class Key (K : Type) := {
  key_eqb : K -> K -> bool;
  key_leb : K -> K -> bool;
  key_eqb_spec : forall a b, reflect (a = b) (key_eqb a b)
}.

Definition date_eqb (a b : date) : bool :=
  (year a =? year b)%Z && (month a =? month b)%Z && (day a =? day b)%Z.

Definition date_leb (a b : date) : bool :=
  match (year a ?= year b)%Z with
  | Lt => true
  | Gt => false
  | Eq => match (month a ?= month b)%Z with
          | Lt => true
          | Gt => false
          | Eq => (day a <=? day b)%Z
          end
  end.

Lemma date_eqb_spec (a b : date) : reflect (a = b) (date_eqb a b).
Proof.
  destruct a as [y1 m1 d1], b as [y2 m2 d2]; unfold date_eqb; simpl.
  destruct (Z.eqb_spec y1 y2); simpl; [|constructor; congruence].
  destruct (Z.eqb_spec m1 m2); simpl; [|constructor; congruence].
  destruct (Z.eqb_spec d1 d2); simpl; constructor; congruence.
Defined.

#[export] Instance Key_date : Key date :=
  {| key_eqb := date_eqb; key_leb := date_leb; key_eqb_spec := date_eqb_spec |}.

#[export] Instance Key_string : Key string :=
  {| key_eqb := String.eqb; key_leb := String.leb;
     key_eqb_spec := String.eqb_spec |}.

Definition pair_eqb {A B} `{Key A} `{Key B} (p q : A * B) : bool :=
  key_eqb (fst p) (fst q) && key_eqb (snd p) (snd q).

(** Lexicographic: first column, then second. *)
Definition pair_leb {A B} `{Key A} `{Key B} (p q : A * B) : bool :=
  if key_eqb (fst p) (fst q) then key_leb (snd p) (snd q)
  else key_leb (fst p) (fst q).

Lemma pair_eqb_spec {A B} `{Key A} `{Key B} (p q : A * B) :
  reflect (p = q) (pair_eqb p q).
Proof.
  destruct p as [a b], q as [c d]; unfold pair_eqb; simpl.
  destruct (key_eqb_spec a c); simpl; [|constructor; congruence].
  destruct (key_eqb_spec b d); simpl; constructor; congruence.
Defined.

#[export] Instance Key_pair {A B} `{Key A} `{Key B} : Key (A * B) :=
  {| key_eqb := pair_eqb; key_leb := pair_leb; key_eqb_spec := pair_eqb_spec |}.

(** Equality of nullable keys as [merge] sees it: null matches null. *)
Definition cell_eqb {K} `{Key K} (a b : option K) : bool :=
  match a, b with
  | Some x, Some y => key_eqb x y
  | None, None => true
  | _, _ => false
  end.

Lemma cell_eqb_spec {K} `{Key K} (a b : option K) :
  reflect (a = b) (cell_eqb a b).
Proof.
  destruct a as [x|], b as [y|]; simpl; try (constructor; congruence).
  destruct (key_eqb_spec x y); constructor; congruence.
Defined.

(* ================================================================== *)
(** * Numbers                                                           *)
(* ================================================================== *)

(** IEEE 754 binary64. In a column, NaN is the missing value: its cell is
    [None]. *)
Definition float64 := spec_float.

Definition fadd (x y : float64) : float64 := SFadd 53 1024 x y.
Definition fsub (x y : float64) : float64 := SFsub 53 1024 x y.
Definition fdiv (x y : float64) : float64 := SFdiv 53 1024 x y.

Definition is_nan (x : float64) : bool :=
  match x with S754_nan => true | _ => false end.

Definition fzero : float64 := S754_zero false.

(** [float(z)]: the float64 nearest to an integer. *)
Definition float_of_Z (z : Z) : float64 := binary_normalize 53 1024 z 0 false.

(** The float64 nearest to a DECIMAL of so many hundredths, as [read_sql]
    converts it. *)
Definition decimal (hundredths : Z) : float64 :=
  fdiv (float_of_Z hundredths) (float_of_Z 100).

(** A cell of a numeric column that may be int64 or float64. *)
Inductive number :=
| Int64 (z : Z)
| Float64 (f : float64).

Definition to_float (n : number) : float64 :=
  match n with
  | Int64 z => float_of_Z z
  | Float64 f => f
  end.

(** Two's complement: the int64 that a 64-bit addition leaves. *)
Definition wrap_int64 (z : Z) : Z := ((z + 2 ^ 63) mod 2 ^ 64 - 2 ^ 63)%Z.

(** The exact value of a finite float64, in units of 2^-1074 (the
    smallest positive float64); 0 for an infinity. *)
Definition scaled (f : float64) : Z :=
  match f with
  | S754_finite s m e => cond_Zopp s (Zpos m * 2 ^ (e + 1074))%Z
  | _ => 0%Z
  end.

(** The place of a number in the order [sort_values] sorts by: exact
    values in the same units, the infinities beyond every finite value,
    NaN below everything (it goes last in a descending sort). *)
Definition rank (n : number) : Z :=
  match n with
  | Int64 z => (z * 2 ^ 1074)%Z
  | Float64 S754_nan => (- 2 ^ 2200)%Z
  | Float64 (S754_infinity true) => (- 2 ^ 2199)%Z
  | Float64 (S754_infinity false) => (2 ^ 2199)%Z
  | Float64 f => scaled f
  end.

(* ================================================================== *)
(** * The tables                                                        *)
(* ================================================================== *)

Record order := mkOrder {
  o_order_id : option string;
  o_order_date : option date;
  o_total_amount : option float64
}.

Record order_item := mkOrderItem {
  oi_order_id : option string;
  oi_item_id : option string;
  oi_quantity : option number
}.

Record menu_item := mkMenuItem {
  mi_item_id : option string;
  mi_item_name : option string;
  mi_category : option string
}.

(** The mapping [load_data] returns. *)
Record dataset := mkDataset {
  orders : list order;
  order_items : list order_item;
  menu_items : list menu_item
}.

(** A row of [joined_df]. *)
Record joined_row := mkJoined {
  order_id : option string;
  order_date : option date;
  total_amount : option float64;
  item_id : option string;
  quantity : option number;
  item_name : option string;
  category : option string
}.

(** A row of the [daily_revenue] frame and table. *)
Record daily_revenue_row := mkDaily {
  dr_order_date : date;
  dr_category : string;
  dr_total_amount : float64
}.

(** A row of the [top_items] frame and of table [top_selling_items]. *)
Record top_item_row := mkTop {
  ti_item_id : string;
  ti_item_name : string;
  ti_quantity : number
}.

(** The mapping [perform_transformations] returns. *)
Record results := mkResults {
  joined_data : list joined_row;
  daily_revenue : list daily_revenue_row;
  top_items : list top_item_row
}.

(* ================================================================== *)
(** * pandas primitives                                                 *)
(* ================================================================== *)

(** [left.merge(right, on=k)]: inner join, left order kept, the matches
    of one left row in right order. *)
Definition merge {L R K} `{Key K} (kl : L -> option K) (kr : R -> option K)
    (left : list L) (right : list R) : list (L * R) :=
  flat_map
    (fun l => map (pair l) (filter (fun r => cell_eqb (kl l) (kr r)) right))
    left.

Fixpoint dropna {A} (l : list (option A)) : list A :=
  match l with
  | [] => []
  | Some a :: t => a :: dropna t
  | None :: t => dropna t
  end.

(** Distinct values in order of first appearance. *)
Fixpoint unique {K} `{Key K} (l : list K) : list K :=
  match l with
  | [] => []
  | x :: t => x :: filter (fun y => negb (key_eqb x y)) (unique t)
  end.

Fixpoint insert_key {K} `{Key K} (x : K) (l : list K) : list K :=
  match l with
  | [] => [x]
  | y :: t => if key_leb x y then x :: l else y :: insert_key x t
  end.

Definition sort_keys {K} `{Key K} (l : list K) : list K :=
  fold_right insert_key [] l.

(** The loop of [group_sum] over the values of one group, in row order:
    [sumx] is the running sum, [comp] the running compensation. A
    compensation that comes out as NaN (an infinity was added) is reset. *)
Fixpoint kahan (sumx comp : float64) (values : list float64) : float64 :=
  match values with
  | [] => sumx
  | val :: rest =>
      let y := fsub val comp in
      let t := fadd sumx y in
      let c := fsub (fsub t sumx) y in
      kahan t (if is_nan c then fzero else c) rest
  end.

(** The sum of a group of a float64 column: nulls are skipped, the empty
    sum is 0.0. *)
Definition sum_float64 (column : list (option float64)) : float64 :=
  kahan fzero fzero (dropna column).

Definition Zsum (l : list Z) : Z := fold_right Z.add 0%Z l.

Definition is_int (c : option number) : bool :=
  match c with Some (Int64 _) => true | _ => false end.

Definition int_value (c : option number) : Z :=
  match c with Some (Int64 z) => z | _ => 0%Z end.

(** The sum of a group of a column that is int64 (every cell an integer)
    or float64 (integers and nulls read as floats). *)
Definition sum_number (column : list (option number)) : number :=
  if forallb is_int column
  then Int64 (wrap_int64 (Zsum (map int_value column)))
  else Float64 (kahan fzero fzero (map to_float (dropna column))).

Section GroupBy.
Context {Row K V W : Type} `{Key K}.
(** The key columns of a row; [None] when one of them is null. *)
Variable by_ : Row -> option K.
(** The aggregated column and the sum of its dtype. *)
Variable col : Row -> option V.
Variable sum : list (option V) -> W.

Definition in_group (k : K) (r : Row) : bool :=
  match by_ r with
  | Some k' => key_eqb k k'
  | None => false
  end.

Definition group_keys (df : list Row) : list K :=
  sort_keys (unique (dropna (map by_ df))).

(** [df.groupby(by).agg({col: 'sum'})]: one entry per key, keys sorted. *)
Definition groupby_sum (df : list Row) : list (K * W) :=
  map (fun k => (k, sum (map col (filter (in_group k) df))))
      (group_keys df).
End GroupBy.

(* ================================================================== *)
(** * The transformations                                               *)
(* ================================================================== *)

Definition mk_joined (p : order * order_item * menu_item) : joined_row :=
  let '(o, i, m) := p in
  {| order_id := o_order_id o;
     order_date := o_order_date o;
     total_amount := o_total_amount o;
     item_id := oi_item_id i;
     quantity := oi_quantity i;
     item_name := mi_item_name m;
     category := mi_category m |}.

(** Lines 84-86: orders ⋈ order_items on order_id, then ⋈ menu_items on
    item_id. *)
Definition joined_df (data : dataset) : list joined_row :=
  map mk_joined
    (merge (fun p : order * order_item => oi_item_id (snd p)) mi_item_id
       (merge o_order_id oi_order_id (orders data) (order_items data))
       (menu_items data)).

Definition revenue_key (j : joined_row) : option (date * string) :=
  match order_date j, category j with
  | Some d, Some c => Some (d, c)
  | _, _ => None
  end.

Definition item_key (j : joined_row) : option (string * string) :=
  match item_id j, item_name j with
  | Some i, Some n => Some (i, n)
  | _, _ => None
  end.

(** Lines 89-91. *)
Definition daily_revenue_of (joined : list joined_row) : list daily_revenue_row :=
  map (fun g => mkDaily (fst (fst g)) (snd (fst g)) (snd g))
      (groupby_sum revenue_key total_amount sum_float64 joined).

(** Lines 94-95: the grouped sums before sorting. *)
Definition item_totals (joined : list joined_row) : list top_item_row :=
  map (fun g => mkTop (fst (fst g)) (snd (fst g)) (snd g))
      (groupby_sum item_key quantity sum_number joined).

(** Descending order of the sort column. *)
Definition quantity_ge (a b : top_item_row) : Prop :=
  (rank (ti_quantity a) >= rank (ti_quantity b))%Z.

(** What [sort_values('quantity', ascending=False)] guarantees. *)
Record sorts_descending (sort_values : list top_item_row -> list top_item_row)
  : Prop := {
  sort_values_perm : forall l, Permutation l (sort_values l);
  sort_values_sorted : forall l, StronglySorted quantity_ge (sort_values l)
}.

(** Lines 94-98. *)
Definition top_items_of (sort_values : list top_item_row -> list top_item_row)
    (joined : list joined_row) : list top_item_row :=
  firstn 10 (sort_values (item_totals joined)).

(* ================================================================== *)
(** * Exceptions, log records and the observable trace                  *)
(* ================================================================== *)

(** The three layers of Python's exception hierarchy the handlers tell
    apart: [psycopg2.Error], any other [Exception], and what lies outside
    [Exception] (KeyboardInterrupt, SystemExit). *)
Inductive exn :=
| PgError (msg : string)
| PyException (msg : string)
| BaseExc (msg : string).

(** [except Error] *)
Definition is_Error (e : exn) : bool :=
  match e with PgError _ => true | _ => false end.

(** [except Exception] *)
Definition is_Exception (e : exn) : bool :=
  match e with BaseExc _ => false | _ => true end.

Inductive level := INFO | WARNING | ERROR.

Inductive message :=
| MsgConnecting
| MsgConnected
| MsgConnectError (e : exn)
| MsgClosed
| MsgLoaded
| MsgLoadError (e : exn)
| MsgNullValues (columns : list (string * nat))
| MsgDuplicateOrders (n : nat)
| MsgTransformed
| MsgTransformError (e : exn)
| MsgSaved
| MsgSaveError (e : exn)
| MsgPipelineFailed (e : exn).

(** The methods whose invocation the trace records. *)
Inductive method :=
| Mconnect | Mload_data | Mperform_transformations | Msave_results
| Mprint_results | Mclose.

Inductive statement :=
| CreateDailyRevenue
| CreateTopSellingItems
| TruncateDailyRevenue
| TruncateTopSellingItems
| InsertDailyRevenue (r : daily_revenue_row)
| InsertTopSellingItem (r : top_item_row).

Inductive event :=
| Call (m : method)
| Log (l : level) (msg : message)
| Execute (st : statement)
| Commit
| Rollback
| CursorClosed
| SessionClosed
| PrintDailyRevenue (rows : list daily_revenue_row)
| PrintTopItems (rows : list top_item_row).

(* ================================================================== *)
(** * The database                                                      *)
(* ================================================================== *)

(** The two target tables; [None] while a table does not exist. Rows are
    kept in insertion order. *)
Record tables := mkTables {
  daily_revenue_tbl : option (list daily_revenue_row);
  top_selling_items_tbl : option (list top_item_row)
}.

(** [PRIMARY KEY (order_date, category)], line 133: no stored row has
    the key of [r]. *)
Definition daily_revenue_accepts (rows : list daily_revenue_row)
    (r : daily_revenue_row) : bool :=
  negb (existsb (fun x => key_eqb (dr_order_date x, dr_category x)
                                  (dr_order_date r, dr_category r)) rows).

(** [PRIMARY KEY (item_id)], line 142. *)
Definition top_selling_items_accepts (rows : list top_item_row)
    (r : top_item_row) : bool :=
  negb (existsb (fun x => key_eqb (ti_item_id x) (ti_item_id r)) rows).

(** The effect of one statement on the session's view of the tables, or
    the engine's error. *)
Definition exec_statement (st : statement) (t : tables) : string + tables :=
  match st with
  | CreateDailyRevenue =>
      match daily_revenue_tbl t with
      | Some _ => inr t
      | None => inr (mkTables (Some []) (top_selling_items_tbl t))
      end
  | CreateTopSellingItems =>
      match top_selling_items_tbl t with
      | Some _ => inr t
      | None => inr (mkTables (daily_revenue_tbl t) (Some []))
      end
  | TruncateDailyRevenue =>
      match daily_revenue_tbl t with
      | Some _ => inr (mkTables (Some []) (top_selling_items_tbl t))
      | None => inl "relation daily_revenue does not exist"%string
      end
  | TruncateTopSellingItems =>
      match top_selling_items_tbl t with
      | Some _ => inr (mkTables (daily_revenue_tbl t) (Some []))
      | None => inl "relation top_selling_items does not exist"%string
      end
  | InsertDailyRevenue r =>
      match daily_revenue_tbl t with
      | Some rows =>
          if daily_revenue_accepts rows r
          then inr (mkTables (Some (rows ++ [r])) (top_selling_items_tbl t))
          else inl "duplicate key value violates daily_revenue_pkey"%string
      | None => inl "relation daily_revenue does not exist"%string
      end
  | InsertTopSellingItem r =>
      match top_selling_items_tbl t with
      | Some rows =>
          if top_selling_items_accepts rows r
          then inr (mkTables (daily_revenue_tbl t) (Some (rows ++ [r])))
          else inl "duplicate key value violates top_selling_items_pkey"%string
      | None => inl "relation top_selling_items does not exist"%string
      end
  end.

Inductive connection := Connection.
Inductive cursor := Cursor.

(** Everything the program can touch or show: the source tables, the
    target tables as committed and as the open transaction sees them, the
    two fields of the [DatabaseConnection] object, the number of
    statements sent so far, and the trace, latest event first. *)
Record world := mkWorld {
  source : dataset;
  committed : tables;
  pending : tables;
  conn : option connection;
  cur : option cursor;
  stmt_no : nat;
  trace : list event
}.

(** Failures that come from outside the program. The engine and the
    driver report every failure of [execute], [commit] and [rollback] as
    a [psycopg2.Error], so those carry only a message. [db_fault n] is
    what goes wrong with the [n]-th statement or commit of the session
    for a reason the model does not fix: the connection breaks, or the
    engine refuses the statement over the type of a column or over a
    value as it converts it. [rollback_fault] is the error of a rollback
    on a connection that was lost. *)
Record env := mkEnv {
  connect_fault : option exn;
  cursor_fault : option exn;
  read_fault : nat -> option exn;
  pandas_fault : option exn;
  db_fault : nat -> option string;
  rollback_fault : option string;
  print_fault : option exn
}.

(* ================================================================== *)
(** * The effect monad                                                  *)
(* ================================================================== *)

Inductive outcome (A : Type) :=
| Returned (a : A)
| Raised (e : exn).
Arguments Raised {A} e.

(** A computation runs in a world and leaves a world, also when it
    raises. *)
Definition M (A : Type) : Type := world -> outcome A * world.

Definition ret {A} (a : A) : M A := fun w => (Returned a, w).

Definition raise {A} (e : exn) : M A := fun w => (Raised e, w).

Definition bind {A B} (m : M A) (k : A -> M B) : M B :=
  fun w =>
    match m w with
    | (Returned a, w') => k a w'
    | (Raised e, w') => (Raised e, w')
    end.

Declare Scope py_scope.
Delimit Scope py_scope with py.
Notation "x <- c1 ;; c2" := (bind c1 (fun x => c2))
  (at level 61, c1 at next level, right associativity) : py_scope.
Notation "c1 ;; c2" := (bind c1 (fun _ => c2))
  (at level 61, right associativity) : py_scope.
Local Open Scope py_scope.

(** [try: body except <class> as e: handler e] *)
Definition try_except {A} (catches : exn -> bool) (body : M A)
    (handler : exn -> M A) : M A :=
  fun w =>
    match body w with
    | (Raised e, w') => if catches e then handler e w' else (Raised e, w')
    | r => r
    end.

(** [try: body finally: cleanup] *)
Definition try_finally {A} (body : M A) (cleanup : M unit) : M A :=
  fun w =>
    let (r, w') := body w in
    match cleanup w' with
    | (Returned _, w'') => (r, w'')
    | (Raised e, w'') => (Raised e, w'')
    end.

(** [for x in l: f x] *)
Fixpoint for_each {A} (l : list A) (f : A -> M unit) : M unit :=
  match l with
  | [] => ret tt
  | x :: t => f x ;; for_each t f
  end.

Definition set_trace (t : list event) (w : world) : world :=
  mkWorld (source w) (committed w) (pending w) (conn w) (cur w) (stmt_no w) t.

Definition set_pending (t : tables) (w : world) : world :=
  mkWorld (source w) (committed w) t (conn w) (cur w) (stmt_no w) (trace w).

Definition set_committed (t : tables) (w : world) : world :=
  mkWorld (source w) t (pending w) (conn w) (cur w) (stmt_no w) (trace w).

Definition set_conn (c : option connection) (w : world) : world :=
  mkWorld (source w) (committed w) (pending w) c (cur w) (stmt_no w) (trace w).

Definition set_cur (c : option cursor) (w : world) : world :=
  mkWorld (source w) (committed w) (pending w) (conn w) c (stmt_no w) (trace w).

Definition set_stmt_no (n : nat) (w : world) : world :=
  mkWorld (source w) (committed w) (pending w) (conn w) (cur w) n (trace w).

Definition emit (ev : event) : M unit :=
  fun w => (Returned tt, set_trace (ev :: trace w) w).

Definition log (l : level) (msg : message) : M unit := emit (Log l msg).

(** A call into a library that the environment may make fail. *)
Definition may_fail (fault : option exn) : M unit :=
  match fault with
  | Some e => raise e
  | None => ret tt
  end.

Definition attribute_error : exn :=
  PyException "AttributeError: 'NoneType' object has no attribute".

(* ================================================================== *)
(** * The program                                                       *)
(* ================================================================== *)

(** ** Data quality checks (lines 113-123) *)

Definition is_null {A} (c : option A) : bool :=
  match c with None => true | Some _ => false end.

Definition count_nulls {A} (column : list (option A)) : nat :=
  List.length (filter is_null column).

(** [df.isnull().sum()]: the number of nulls of each column. *)
Definition null_counts (df : list joined_row) : list (string * nat) :=
  [ ("order_id"%string, count_nulls (map order_id df));
    ("order_date"%string, count_nulls (map order_date df));
    ("total_amount"%string, count_nulls (map total_amount df));
    ("item_id"%string, count_nulls (map item_id df));
    ("quantity"%string, count_nulls (map quantity df));
    ("item_name"%string, count_nulls (map item_name df));
    ("category"%string, count_nulls (map category df)) ].

(** [Series.duplicated()]: a value is flagged when it occurred earlier;
    [seen] holds the earlier values. *)
Fixpoint duplicated_from {K} `{Key K} (seen : list (option K))
    (column : list (option K)) : list bool :=
  match column with
  | [] => []
  | x :: t => existsb (cell_eqb x) seen :: duplicated_from (x :: seen) t
  end.

Definition duplicated {K} `{Key K} (column : list (option K)) : list bool :=
  duplicated_from [] column.

(** [.sum()] of a boolean column. *)
Definition count_true (l : list bool) : nat :=
  List.length (filter (fun b => b) l).

Definition _perform_data_quality_checks (df : list joined_row) : M unit :=
  let nc := null_counts df in
  (if existsb (fun c => negb (snd c =? 0)) nc
   then log WARNING (MsgNullValues (filter (fun c => 0 <? snd c) nc))
   else ret tt) ;;
  let duplicate_orders := count_true (duplicated (map order_id df)) in
  if 0 <? duplicate_orders
  then log WARNING (MsgDuplicateOrders duplicate_orders)
  else ret tt.

Section Program.
(** The sorting routine behind [sort_values]. *)
Variable sort_values : list top_item_row -> list top_item_row.
(** What the outside world does to this run. *)
Variable E : env.

(** ** DatabaseConnection (lines 23-57) *)

Definition DatabaseConnection_init : M unit :=
  fun w => (Returned tt, set_cur None (set_conn None w)).

Definition connect : M unit :=
  emit (Call Mconnect) ;;
  try_except is_Error
    (log INFO MsgConnecting ;;
     may_fail (connect_fault E) ;;
     (fun w => (Returned tt, set_conn (Some Connection) w)) ;;
     may_fail (cursor_fault E) ;;
     (fun w => (Returned tt, set_cur (Some Cursor) w)) ;;
     log INFO MsgConnected)
    (fun e => log ERROR (MsgConnectError e) ;; raise e).

(** [self.cur.close()] *)
Definition cur_close : M unit :=
  fun w =>
    match cur w with
    | None => (Raised attribute_error, w)
    | Some _ => (Returned tt, set_trace (CursorClosed :: trace w) w)
    end.

(** [self.conn.close()]: what the transaction had not committed is
    discarded. *)
Definition conn_close : M unit :=
  fun w =>
    match conn w with
    | None => (Raised attribute_error, w)
    | Some _ =>
        (Returned tt,
         set_trace (SessionClosed :: trace w) (set_pending (committed w) w))
    end.

Definition close : M unit :=
  emit (Call Mclose) ;;
  (fun w => match cur w with
            | Some _ => cur_close w
            | None => ret tt w
            end) ;;
  (fun w => match conn w with
            | Some _ => (conn_close ;; log INFO MsgClosed) w
            | None => ret tt w
            end).

(** ** DataTransformer (lines 59-176) *)

(** [pd.read_sql(query, self.db.conn)], the [n]-th of the three. *)
Definition read_sql {A} (n : nat) (table : dataset -> list A) : M (list A) :=
  fun w =>
    match conn w with
    | None => (Raised attribute_error, w)
    | Some _ =>
        match read_fault E n with
        | Some e => (Raised e, w)
        | None => (Returned (table (source w)), w)
        end
    end.

Definition load_data : M dataset :=
  emit (Call Mload_data) ;;
  try_except is_Error
    (orders_df <- read_sql 0 orders ;;
     order_items_df <- read_sql 1 order_items ;;
     menu_items_df <- read_sql 2 menu_items ;;
     log INFO MsgLoaded ;;
     ret (mkDataset orders_df order_items_df menu_items_df))
    (fun e => log ERROR (MsgLoadError e) ;; raise e).

Definition perform_transformations (data : dataset) : M results :=
  emit (Call Mperform_transformations) ;;
  try_except is_Exception
    (may_fail (pandas_fault E) ;;
     let joined := joined_df data in
     let daily := daily_revenue_of joined in
     let top := top_items_of sort_values joined in
     _perform_data_quality_checks joined ;;
     log INFO MsgTransformed ;;
     ret (mkResults joined daily top))
    (fun e => log ERROR (MsgTransformError e) ;; raise e).

(** [self.db.cur.execute(st)] *)
Definition execute (st : statement) : M unit :=
  fun w =>
    match cur w with
    | None => (Raised attribute_error, w)
    | Some _ =>
        let w1 := set_trace (Execute st :: trace w)
                    (set_stmt_no (S (stmt_no w)) w) in
        match db_fault E (stmt_no w) with
        | Some msg => (Raised (PgError msg), w1)
        | None =>
            match exec_statement st (pending w) with
            | inl msg => (Raised (PgError msg), w1)
            | inr t => (Returned tt, set_pending t w1)
            end
        end
    end.

(** [self.db.conn.commit()] *)
Definition commit : M unit :=
  fun w =>
    match conn w with
    | None => (Raised attribute_error, w)
    | Some _ =>
        let w1 := set_stmt_no (S (stmt_no w)) w in
        match db_fault E (stmt_no w) with
        | Some msg => (Raised (PgError msg), w1)
        | None =>
            (Returned tt,
             set_trace (Commit :: trace w1) (set_committed (pending w1) w1))
        end
    end.

(** [self.db.conn.rollback()]. On a connection that was lost the call
    raises; the server ends the session of a lost connection and with it
    the transaction, so nothing of it is pending any more. *)
Definition rollback : M unit :=
  fun w =>
    match conn w with
    | None => (Raised attribute_error, w)
    | Some _ =>
        match rollback_fault E with
        | Some msg => (Raised (PgError msg), set_pending (committed w) w)
        | None =>
            (Returned tt,
             set_trace (Rollback :: trace w) (set_pending (committed w) w))
        end
    end.

Definition save_results (res : results) : M unit :=
  emit (Call Msave_results) ;;
  try_except is_Error
    (execute CreateDailyRevenue ;;
     execute CreateTopSellingItems ;;
     execute TruncateDailyRevenue ;;
     execute TruncateTopSellingItems ;;
     for_each (daily_revenue res) (fun row => execute (InsertDailyRevenue row)) ;;
     for_each (top_items res) (fun row => execute (InsertTopSellingItem row)) ;;
     commit ;;
     log INFO MsgSaved)
    (fun e => log ERROR (MsgSaveError e) ;; rollback ;; raise e).

Definition print_results (res : results) : M unit :=
  emit (Call Mprint_results) ;;
  may_fail (print_fault E) ;;
  emit (PrintDailyRevenue (daily_revenue res)) ;;
  emit (PrintTopItems (top_items res)).

(** ** The driver (lines 178-192) *)

Definition main : M unit :=
  DatabaseConnection_init ;;
  try_finally
    (try_except is_Exception
       (connect ;;
        data <- load_data ;;
        res <- perform_transformations data ;;
        save_results res ;;
        print_results res)
       (fun e => log ERROR (MsgPipelineFailed e) ;; raise e))
    close.
End Program.

(* ================================================================== *)
(** * A sorting routine that meets the contract of [sort_values]        *)
(* ================================================================== *)

(** Insertion into a descending list, before the rows that are not
    larger. *)
Fixpoint insert_desc (x : top_item_row) (l : list top_item_row)
    : list top_item_row :=
  match l with
  | [] => [x]
  | y :: t =>
      if (rank (ti_quantity y) <=? rank (ti_quantity x))%Z
      then x :: l
      else y :: insert_desc x t
  end.

(** Descending and stable: equal quantities keep their input order. *)
Definition stable_sort_desc (l : list top_item_row) : list top_item_row :=
  fold_right insert_desc [] l.

(* ================================================================== *)
(** * Sample data                                                       *)
(* ================================================================== *)

Definition no_faults : env :=
  mkEnv None None (fun _ => None) None (fun _ => None) None None.

Definition empty_tables : tables := mkTables None None.

(** A process that has not opened its connection yet. *)
Definition initial_world (src : dataset) (t : tables) : world :=
  mkWorld src t t None None 0 [].

(** The same process once [connect] has succeeded. *)
Definition connected_world (src : dataset) (t : tables) : world :=
  mkWorld src t t (Some Connection) (Some Cursor) 0 [].

Definition jan1 : date := mkDate 2024 1 1.

(** One order of 30.00 with two burgers. *)
Definition sample_data : dataset :=
  mkDataset
    [mkOrder (Some "O1"%string) (Some jan1) (Some (decimal 3000))]
    [mkOrderItem (Some "O1"%string) (Some "I1"%string) (Some (Int64 2))]
    [mkMenuItem (Some "I1"%string) (Some "Burger"%string) (Some "Main"%string)].

(* ================================================================== *)
(** * Vocabulary of the statements                                      *)
(* ================================================================== *)

(** The warning of lines 116-118, as the trace shows it. *)
Definition null_warning (df : list joined_row) : list event :=
  if existsb (fun c => negb (snd c =? 0)) (null_counts df)
  then [Log WARNING (MsgNullValues (filter (fun c => 0 <? snd c) (null_counts df)))]
  else [].

(** The warning of lines 121-123, as the trace shows it. *)
Definition duplicate_warning (df : list joined_row) : list event :=
  if 0 <? count_true (duplicated (map order_id df))
  then [Log WARNING (MsgDuplicateOrders (count_true (duplicated (map order_id df))))]
  else [].

(** The mapping [perform_transformations] builds from its input. *)
Definition transformed (sort_values : list top_item_row -> list top_item_row)
    (data : dataset) : results :=
  mkResults (joined_df data) (daily_revenue_of (joined_df data))
            (top_items_of sort_values (joined_df data)).

(** The joined rows of one (order_date, category) pair. *)
Definition same_date_category (d : date) (c : string) (j : joined_row) : bool :=
  cell_eqb (order_date j) (Some d) && cell_eqb (category j) (Some c).



(** Every (order_date, category) pair of the joined rows has its row in
    [daily_revenue]. *)
Definition every_pair_has_a_row (res : results) : Prop :=
  forall j, In j (joined_data res) ->
    exists r, In r (daily_revenue res) /\
      order_date j = Some (dr_order_date r) /\
      category j = Some (dr_category r).

(** The sample order, its burger filed under no category. *)
Definition uncategorised_data : dataset :=
  mkDataset
    [mkOrder (Some "O1"%string) (Some jan1) (Some (decimal 3000))]
    [mkOrderItem (Some "O1"%string) (Some "I1"%string) (Some (Int64 2))]
    [mkMenuItem (Some "I1"%string) (Some "Burger"%string) None].

(** The key columns of an aggregate's row. *)
Definition daily_key (r : daily_revenue_row) : date * string :=
  (dr_order_date r, dr_category r).

Definition item_pair (r : top_item_row) : string * string :=
  (ti_item_id r, ti_item_name r).



(** One order of two units of item I1, which the menu lists under two
    names. *)
Definition renamed_item_data : dataset :=
  mkDataset
    [mkOrder (Some "O1"%string) (Some jan1) (Some (decimal 3000))]
    [mkOrderItem (Some "O1"%string) (Some "I1"%string) (Some (Int64 2))]
    [mkMenuItem (Some "I1"%string) (Some "Burger"%string) (Some "Main"%string);
     mkMenuItem (Some "I1"%string) (Some "Cheeseburger"%string) (Some "Main"%string)].

(** One order of two burgers and two portions of fries. *)
Definition tied_items_data : dataset :=
  mkDataset
    [mkOrder (Some "O1"%string) (Some jan1) (Some (decimal 3000))]
    [mkOrderItem (Some "O1"%string) (Some "I1"%string) (Some (Int64 2));
     mkOrderItem (Some "O1"%string) (Some "I2"%string) (Some (Int64 2))]
    [mkMenuItem (Some "I1"%string) (Some "Burger"%string) (Some "Main"%string);
     mkMenuItem (Some "I2"%string) (Some "Fries"%string) (Some "Side"%string)].

(** The joined rows that stem from one line item of one order, and from
    one order. *)
Definition item_lines (menu : list menu_item) (o : order) (i : order_item)
    : list joined_row :=
  map (fun m => mk_joined (o, i, m))
      (filter (fun m => cell_eqb (oi_item_id i) (mi_item_id m)) menu).

Definition order_lines (menu : list menu_item) (items : list order_item)
    (o : order) : list joined_row :=
  flat_map (item_lines menu o)
           (filter (fun i => cell_eqb (o_order_id o) (oi_order_id i)) items).



(** The exact value of a cell of [total_amount], in units of 2^-1074: a
    null adds nothing to a sum. *)
Definition cell_value (c : option float64) : Z :=
  match c with
  | Some a => scaled a
  | None => 0%Z
  end.

(** The sum of a column of [total_amount] in exact arithmetic. *)
Definition exact_sum (column : list (option float64)) : Z :=
  Zsum (map cell_value column).

(** No rounding: the float64 sum of the column is its exact sum. *)
Definition summed_exactly (column : list (option float64)) : Prop :=
  scaled (sum_float64 column) = exact_sum column.







(** An order with a burger and a steak, both main courses. *)
Definition two_mains (total : Z) : dataset :=
  mkDataset
    [mkOrder (Some "O1"%string) (Some jan1) (Some (decimal total))]
    [mkOrderItem (Some "O1"%string) (Some "I1"%string) (Some (Int64 1));
     mkOrderItem (Some "O1"%string) (Some "I3"%string) (Some (Int64 1))]
    [mkMenuItem (Some "I1"%string) (Some "Burger"%string) (Some "Main"%string);
     mkMenuItem (Some "I3"%string) (Some "Steak"%string) (Some "Main"%string)].

(** Two loads of the same tables: equal, row for row. *)
Definition same_tables (d1 d2 : dataset) : Prop :=
  Forall2 eq (orders d1) (orders d2) /\
  Forall2 eq (order_items d1) (order_items d2) /\
  Forall2 eq (menu_items d1) (menu_items d2).

(** [perform_transformations] with line 101, the call of the quality
    checks, taken out; the rest as in the source. *)
Definition perform_transformations_without_checks
    (sort_values : list top_item_row -> list top_item_row) (E : env)
    (data : dataset) : M results :=
  (emit (Call Mperform_transformations) ;;
   try_except is_Exception
     (may_fail (pandas_fault E) ;;
      let joined := joined_df data in
      let daily := daily_revenue_of joined in
      let top := top_items_of sort_values joined in
      log INFO MsgTransformed ;;
      ret (mkResults joined daily top))
     (fun e => log ERROR (MsgTransformError e) ;; raise e))%py.

Definition is_warning (ev : event) : bool :=
  match ev with
  | Log WARNING _ => true
  | _ => false
  end.

(** The trace with its warnings taken out. *)
Definition without_warnings (t : list event) : list event :=
  filter (fun ev => negb (is_warning ev)) t.

(** The statements [save_results] sends before it commits, in order. *)
Definition statements_of (res : results) : list statement :=
  [CreateDailyRevenue; CreateTopSellingItems;
   TruncateDailyRevenue; TruncateTopSellingItems]
  ++ map InsertDailyRevenue (daily_revenue res)
  ++ map InsertTopSellingItem (top_items res).

(** The steps of [save_results] that can fail: its statements and the
    commit. *)
Definition steps_of (res : results) : nat := S (List.length (statements_of res)).

(** The engine applying statements one after the other. *)
Fixpoint apply_statements (stmts : list statement) (t : tables) : string + tables :=
  match stmts with
  | [] => inr t
  | st :: rest =>
      match exec_statement st t with
      | inl msg => inl msg
      | inr t' => apply_statements rest t'
      end
  end.

(** [connect] has succeeded and nothing is pending. *)
Definition connected (w : world) : Prop :=
  conn w = Some Connection /\ cur w = Some Cursor.

(** What a computation leaves alone when it only talks to the session. *)
Definition same_session (w w' : world) : Prop :=
  source w' = source w /\ committed w' = committed w /\
  conn w' = conn w /\ cur w' = cur w.

(** The tables as an earlier run left them. *)
Definition yesterdays_tables : tables :=
  mkTables (Some [mkDaily (mkDate 2023 12 31) "Main" (decimal 1500)])
           (Some [mkTop "I7" "Soup" (Int64 4)]).

(** The connection breaks at the [n]-th statement of the session. *)
Definition fault_at (n : nat) : env :=
  mkEnv None None (fun _ => None) None
        (fun k => if k =? n then Some "server closed the connection"%string
                  else None)
        None None.

(** The same, and the rollback that follows finds the connection gone. *)
Definition lost_at (n : nat) : env :=
  mkEnv None None (fun _ => None) None
        (fun k => if k =? n then Some "server closed the connection"%string
                  else None)
        (Some "connection already closed"%string) None.

(** A computation that adds to the trace and never calls [close]. *)
Definition quiet {A} (m : M A) : Prop :=
  forall w, exists t, trace (snd (m w)) = t ++ trace w /\ ~ In (Call Mclose) t.

(** From the trace [old] to the trace [new], [close] was called exactly
    once, and no method was called after it. *)
Definition closes_once (old new : list event) : Prop :=
  exists before after,
    new = after ++ Call Mclose :: before ++ old /\
    ~ In (Call Mclose) before /\
    forall m, ~ In (Call m) after.

(** The connection is accepted and the cursor is refused. *)
Definition no_cursor : env :=
  mkEnv None (Some (PgError "cursor refused")) (fun _ => None) None
        (fun _ => None) None None.

(** The methods a trace records as called, latest first. *)
Fixpoint calls (t : list event) : list method :=
  match t with
  | [] => []
  | Call m :: rest => m :: calls rest
  | _ :: rest => calls rest
  end.

(** Results that respect the two primary keys: no (order_date, category)
    pair twice in [daily_revenue], no item_id twice in [top_items]. *)
Definition keys_unique (res : results) : Prop :=
  NoDup (map daily_key (daily_revenue res)) /\
  NoDup (map ti_item_id (top_items res)).

(** No fault on any step of a save that starts at statement [n]. *)
Definition no_fault_during_save (E : env) (n : nat) (res : results) : Prop :=
  forall k, k < steps_of res -> db_fault E (n + k) = None.

(** The rows a run of the pipeline is to leave in the target tables. *)
Definition aggregates_of
    (sort_values : list top_item_row -> list top_item_row) (src : dataset)
    : tables :=
  mkTables (Some (daily_revenue (transformed sort_values src)))
           (Some (top_items (transformed sort_values src))).

(** The three tables as [load_data] packs them. *)
Definition loaded (src : dataset) : dataset :=
  mkDataset (orders src) (order_items src) (menu_items src).

(** A computation that leaves the source tables alone. *)
Definition keeps_source {A} (m : M A) : Prop :=
  forall w, source (snd (m w)) = source w.

(** The fault, if any, that stops a run before it reaches the save: on
    the session, the cursor, one of the three reads, or in the library. *)
Definition failure_before_save (E : env) : option exn :=
  match connect_fault E with
  | Some e => Some e
  | None =>
  match cursor_fault E with
  | Some e => Some e
  | None =>
  match read_fault E 0 with
  | Some e => Some e
  | None =>
  match read_fault E 1 with
  | Some e => Some e
  | None =>
  match read_fault E 2 with
  | Some e => Some e
  | None => pandas_fault E
  end end end end end.

(** Strictly earlier calendar date. *)
Definition date_lt (a b : date) : Prop :=
  (year a < year b \/
   (year a = year b /\
    (month a < month b \/ (month a = month b /\ day a < day b))))%Z.

(** Row [a] of [daily_revenue] goes strictly before row [b]: an earlier
    date, or the same date and a category that is smaller as a string. *)
Definition comes_before (a b : daily_revenue_row) : Prop :=
  date_lt (dr_order_date a) (dr_order_date b) \/
  (dr_order_date a = dr_order_date b /\
   String.ltb (dr_category a) (dr_category b) = true).

(** Every line item has its order and its menu item. *)
Definition fully_matched (data : dataset) : Prop :=
  forall i, In i (order_items data) ->
    (exists o, In o (orders data) /\ o_order_id o = oi_order_id i) /\
    (exists m, In m (menu_items data) /\ mi_item_id m = oi_item_id i).

(** Some cell of the row is null. *)
Definition has_null (j : joined_row) : bool :=
  is_null (order_id j) || is_null (order_date j) || is_null (total_amount j)
  || is_null (item_id j) || is_null (quantity j) || is_null (item_name j)
  || is_null (category j).

(** Each row of [daily_revenue] carries the exact sum of [total_amount]
    over the joined rows of its group. *)
Definition totals_are_exact (res : results) : Prop :=
  forall r, In r (daily_revenue res) ->
    scaled (dr_total_amount r) =
    exact_sum (map total_amount
                 (filter (same_date_category (dr_order_date r) (dr_category r))
                         (joined_data res))).

(** Two orders of one day, of 0.10 and of 0.20, a burger each. *)
Definition dimes_data : dataset :=
  mkDataset
    [mkOrder (Some "O1"%string) (Some jan1) (Some (decimal 10));
     mkOrder (Some "O2"%string) (Some jan1) (Some (decimal 20))]
    [mkOrderItem (Some "O1"%string) (Some "I1"%string) (Some (Int64 1));
     mkOrderItem (Some "O2"%string) (Some "I1"%string) (Some (Int64 1))]
    [mkMenuItem (Some "I1"%string) (Some "Burger"%string) (Some "Main"%string)].



(** The error of the first step of a save that fails, the commit being
    the last step: a fault of the environment on the step, or the
    engine's refusal of the statement. [n] is the number of the first
    statement, [t] the tables as the session sees them. *)
Fixpoint first_failure (E : env) (n : nat) (stmts : list statement)
    (t : tables) : option string :=
  match stmts with
  | [] => db_fault E n
  | st :: rest =>
      match db_fault E n with
      | Some msg => Some msg
      | None =>
          match exec_statement st t with
          | inl msg => Some msg
          | inr t' => first_failure E (S n) rest t'
          end
      end
  end.

(** What [save_results] lets through is the error of its first failing
    step. *)
Definition failure_reraised (E : env) (res : results) (w : world) : Prop :=
  forall e w', save_results E res w = (Raised e, w') ->
    exists msg,
      first_failure E (stmt_no w) (statements_of res) (pending w) = Some msg /\
      e = PgError msg.

(* ================================================================== *)
(** * Facts about the pandas primitives                                 *)
(* ================================================================== *)

Lemma key_eqb_refl {K} `{Key K} (k : K) : key_eqb k k = true.
Proof. destruct (key_eqb_spec k k); congruence. Qed.

Lemma key_eqb_eq {K} `{Key K} (a b : K) : key_eqb a b = true <-> a = b.
Proof. destruct (key_eqb_spec a b); split; congruence. Qed.

Lemma cell_eqb_eq {K} `{Key K} (a b : option K) : cell_eqb a b = true <-> a = b.
Proof. destruct (cell_eqb_spec a b); split; congruence. Qed.



Lemma in_dropna {A} (l : list (option A)) (a : A) :
  In a (dropna l) <-> In (Some a) l.
Proof.
  induction l as [|[x|] t IH]; simpl.
  - tauto.
  - rewrite IH. split; intros [Hx|Hx]; auto; left; congruence.
  - rewrite IH. split; [auto|]. intros [Hx|Hx]; [discriminate|assumption].
Qed.

Lemma in_unique {K} `{Key K} (l : list K) (k : K) :
  In k (unique l) <-> In k l.
Proof.
  induction l as [|x t IH]; simpl; [tauto|].
  rewrite filter_In, IH. split.
  - intros [Hx|[Hx _]]; auto.
  - intros [Hx|Hx]; [auto|].
    destruct (key_eqb_spec x k) as [->|Hne]; [auto|].
    right. split; [assumption|].
    destruct (key_eqb_spec x k); [contradiction|reflexivity].
Qed.

Lemma NoDup_unique {K} `{Key K} (l : list K) : NoDup (unique l).
Proof.
  induction l as [|x t IH]; simpl; constructor.
  - rewrite filter_In. intros [_ Hx]. rewrite key_eqb_refl in Hx. discriminate.
  - now apply NoDup_filter.
Qed.

Lemma insert_key_perm {K} `{Key K} (x : K) (l : list K) :
  Permutation (x :: l) (insert_key x l).
Proof.
  induction l as [|y t IH]; simpl; [reflexivity|].
  destruct (key_leb x y); [reflexivity|].
  rewrite perm_swap. now constructor.
Qed.

Lemma sort_keys_perm {K} `{Key K} (l : list K) : Permutation l (sort_keys l).
Proof.
  induction l as [|x t IH]; simpl; [constructor|].
  rewrite <- insert_key_perm. now constructor.
Qed.

Section GroupByFacts.
Context {Row K V W : Type} `{Key K}.
Variable by_ : Row -> option K.
Variable col : Row -> option V.
Variable sum : list (option V) -> W.

Lemma in_group_keys (df : list Row) (k : K) :
  In k (group_keys by_ df) <-> exists r, In r df /\ by_ r = Some k.
Proof.
  unfold group_keys.
  rewrite <- (Permutation_in' eq_refl (sort_keys_perm _)) by exact eq_refl.
  rewrite in_unique, in_dropna, in_map_iff. split.
  - intros (r & Hk & Hr). eauto.
  - intros (r & Hr & Hk). eauto.
Qed.

Lemma NoDup_group_keys (df : list Row) : NoDup (group_keys by_ df).
Proof.
  unfold group_keys.
  eapply Permutation_NoDup; [apply sort_keys_perm|apply NoDup_unique].
Qed.

Lemma groupby_sum_keys (df : list Row) :
  map fst (groupby_sum by_ col sum df) = group_keys by_ df.
Proof.
  unfold groupby_sum. rewrite map_map. simpl. apply map_id.
Qed.

Lemma in_groupby_sum (df : list Row) (k : K) (v : W) :
  In (k, v) (groupby_sum by_ col sum df) <->
  In k (group_keys by_ df) /\
  v = sum (map col (filter (in_group by_ k) df)).
Proof.
  unfold groupby_sum. rewrite in_map_iff. split.
  - intros (k' & Heq & Hk). inversion Heq; subst. auto.
  - intros (Hk & ->). eauto.
Qed.

Lemma in_group_iff (k : K) (r : Row) :
  in_group by_ k r = true <-> by_ r = Some k.
Proof.
  unfold in_group. destruct (by_ r) as [k'|].
  - rewrite key_eqb_eq. split; congruence.
  - split; discriminate.
Qed.
End GroupByFacts.

(* ================================================================== *)
(** * Running the quality checks and the transformations                *)
(* ================================================================== *)

Lemma set_trace_same (w : world) : set_trace (trace w) w = w.
Proof. now destruct w. Qed.

Lemma set_trace_twice (t1 t2 : list event) (w : world) :
  set_trace t1 (set_trace t2 w) = set_trace t1 w.
Proof. reflexivity. Qed.

Lemma quality_checks_run (df : list joined_row) (w : world) :
  _perform_data_quality_checks df w =
  (Returned tt, set_trace (duplicate_warning df ++ null_warning df ++ trace w) w).
Proof.
  unfold _perform_data_quality_checks, duplicate_warning, null_warning, bind, log, emit, ret.
  destruct (existsb _ (null_counts df));
    destruct (0 <? count_true (duplicated (map order_id df))); simpl;
    rewrite ?set_trace_same; reflexivity.
Qed.

Lemma perform_transformations_run sort_values E data w :
  pandas_fault E = None ->
  perform_transformations sort_values E data w =
  (Returned (transformed sort_values data),
   set_trace (Log INFO MsgTransformed ::
              duplicate_warning (joined_df data) ++
              null_warning (joined_df data) ++
              Call Mperform_transformations :: trace w) w).
Proof.
  intros HE. unfold perform_transformations, try_except, bind at 1, emit.
  unfold bind at 1. rewrite HE. simpl.
  unfold bind at 1. rewrite quality_checks_run. reflexivity.
Qed.

Lemma perform_transformations_fault sort_values E data w e :
  pandas_fault E = Some e ->
  exists w', perform_transformations sort_values E data w = (Raised e, w').
Proof.
  intros HE. unfold perform_transformations, try_except, bind at 1, emit.
  unfold bind at 1. rewrite HE. simpl.
  destruct (is_Exception e); unfold bind, log, emit, raise; simpl; eauto.
Qed.

(* ================================================================== *)
(** * Daily revenue                                                     *)
(* ================================================================== *)

Lemma revenue_key_Some (j : joined_row) (d : date) (c : string) :
  revenue_key j = Some (d, c) <-> order_date j = Some d /\ category j = Some c.
Proof.
  unfold revenue_key. destruct (order_date j), (category j); split;
    try discriminate; try (intros [? ?]; discriminate); intuition congruence.
Qed.

Lemma in_group_revenue_key (d : date) (c : string) (j : joined_row) :
  in_group revenue_key (d, c) j = same_date_category d c j.
Proof.
  apply eq_true_iff_eq. rewrite in_group_iff, revenue_key_Some.
  unfold same_date_category. rewrite andb_true_iff, !cell_eqb_eq. tauto.
Qed.

Lemma daily_revenue_keys (joined : list joined_row) :
  map daily_key (daily_revenue_of joined) = group_keys revenue_key joined.
Proof.
  unfold daily_revenue_of. rewrite map_map.
  rewrite <- (groupby_sum_keys revenue_key total_amount sum_float64).
  apply map_ext. now intros [[d c] v].
Qed.

Lemma in_daily_revenue_of (joined : list joined_row) (r : daily_revenue_row) :
  In r (daily_revenue_of joined) ->
  dr_total_amount r =
  sum_float64 (map total_amount
    (filter (same_date_category (dr_order_date r) (dr_category r)) joined)).
Proof.
  unfold daily_revenue_of. rewrite in_map_iff.
  intros ([[d c] v] & <- & Hin). simpl.
  apply in_groupby_sum in Hin. destruct Hin as [_ ->].
  f_equal. f_equal. apply filter_ext. intros j. apply in_group_revenue_key.
Qed.

Lemma daily_revenue_key_present (joined : list joined_row) (d : date) (c : string) :
  In (d, c) (map daily_key (daily_revenue_of joined)) <->
  exists j, In j joined /\ order_date j = Some d /\ category j = Some c.
Proof.
  rewrite daily_revenue_keys, in_group_keys.
  split; intros (j & Hj & Hk); exists j; split; auto; now apply revenue_key_Some.
Qed.

(** C1, as amended. Whenever the library does not fail,
    [perform_transformations] returns, and its [daily_revenue] has exactly
    one row for each (order_date, category) pair that some joined row
    carries with both components non-null: the keys of the rows are
    pairwise distinct, a pair is a key exactly when a joined row carries
    it, and the row's [total_amount] is the float64 sum, as [groupby]
    computes it in row order, of the non-null [total_amount] cells of the
    joined rows carrying that pair. Joined rows with a null date or
    category belong to no group. *)
Theorem daily_revenue_one_row_per_group
    (sort_values : list top_item_row -> list top_item_row) (E : env)
    (data : dataset) (w : world) :
  pandas_fault E = None ->
  exists res w',
    perform_transformations sort_values E data w = (Returned res, w') /\
    joined_data res = joined_df data /\
    NoDup (map daily_key (daily_revenue res)) /\
    (forall d c,
        In (d, c) (map daily_key (daily_revenue res)) <->
        exists j, In j (joined_data res) /\
                  order_date j = Some d /\ category j = Some c) /\
    (forall r, In r (daily_revenue res) ->
        dr_total_amount r =
        sum_float64 (map total_amount
          (filter (same_date_category (dr_order_date r) (dr_category r))
                  (joined_data res)))).
Proof.
  intros HE. eexists. eexists. split.
  - apply perform_transformations_run. exact HE.
  - simpl. split; [reflexivity|]. split; [|split].
    + rewrite daily_revenue_keys. apply NoDup_group_keys.
    + intros d c. apply daily_revenue_key_present.
    + intros r. apply in_daily_revenue_of.
Qed.

Lemma daily_revenue_one_row_per_group_witness :
  pandas_fault no_faults = None /\
  exists res w',
    perform_transformations stable_sort_desc no_faults sample_data
      (initial_world sample_data empty_tables) = (Returned res, w') /\
    joined_data res = joined_df sample_data /\
    NoDup (map daily_key (daily_revenue res)) /\
    (forall d c,
        In (d, c) (map daily_key (daily_revenue res)) <->
        exists j, In j (joined_data res) /\
                  order_date j = Some d /\ category j = Some c) /\
    (forall r, In r (daily_revenue res) ->
        dr_total_amount r =
        sum_float64 (map total_amount
          (filter (same_date_category (dr_order_date r) (dr_category r))
                  (joined_data res)))).
Proof.
  split; [reflexivity|].
  apply (@daily_revenue_one_row_per_group stable_sort_desc no_faults sample_data
           (initial_world sample_data empty_tables)).
  reflexivity.
Defined.

(** The spec's worked example: one order of 30.00 with two burgers. *)
Example sample_daily_revenue :
  daily_revenue (transformed stable_sort_desc sample_data) =
  [mkDaily jan1 "Main" (decimal 3000)].
Proof. vm_compute. reflexivity. Qed.

Example sample_top_items :
  top_items (transformed stable_sort_desc sample_data) =
  [mkTop "I1" "Burger" (Int64 2)].
Proof. vm_compute. reflexivity. Qed.

(** C1 as stated fails twice. An item without a category is joined, and
    its (order_date, NULL) pair gets no row in [daily_revenue]. And the
    total of a group is a float64 sum, not the exact one: 0.10 and 0.20
    add up to 0.30000000000000004, which is neither the exact sum of the
    two cells nor the float64 nearest to 0.30. *)
Lemma daily_revenue_neither_complete_nor_exact :
  (exists res w',
     perform_transformations stable_sort_desc no_faults uncategorised_data
       (initial_world uncategorised_data empty_tables) = (Returned res, w') /\
     joined_data res <> [] /\
     daily_revenue res = [] /\
     ~ every_pair_has_a_row res) /\
  (exists res w',
     perform_transformations stable_sort_desc no_faults dimes_data
       (initial_world dimes_data empty_tables) = (Returned res, w') /\
     daily_revenue res =
       [mkDaily jan1 "Main" (S754_finite false 5404319552844596 (-54))] /\
     decimal 30 = S754_finite false 5404319552844595 (-54) /\
     ~ totals_are_exact res).
Proof.
  split.
  - eexists. eexists. split; [reflexivity|]. simpl.
    split; [discriminate|]. split; [reflexivity|].
    intros Hall. destruct (Hall _ (or_introl eq_refl)) as (r & [] & _).
  - eexists. eexists. split; [reflexivity|].
    split; [vm_compute; reflexivity|]. split; [vm_compute; reflexivity|].
    intros Hall.
    specialize (Hall (mkDaily jan1 "Main" (S754_finite false 5404319552844596 (-54)))).
    assert (Hin : In (mkDaily jan1 "Main" (S754_finite false 5404319552844596 (-54)))
                     (daily_revenue (transformed stable_sort_desc dimes_data))).
    { vm_compute. auto. }
    specialize (Hall Hin). vm_compute in Hall. discriminate.
Qed.

(* ================================================================== *)
(** * Sorting                                                           *)
(* ================================================================== *)

Lemma insert_desc_perm (x : top_item_row) (l : list top_item_row) :
  Permutation (x :: l) (insert_desc x l).
Proof.
  induction l as [|y t IH]; simpl; [reflexivity|].
  destruct (rank (ti_quantity y) <=? rank (ti_quantity x))%Z; [reflexivity|].
  rewrite perm_swap. now constructor.
Qed.

Lemma insert_desc_sorted (x : top_item_row) (l : list top_item_row) :
  StronglySorted quantity_ge l -> StronglySorted quantity_ge (insert_desc x l).
Proof.
  induction 1 as [|y t Hs IH Hy]; simpl.
  - repeat constructor.
  - destruct (Z.leb_spec (rank (ti_quantity y)) (rank (ti_quantity x))) as [Hc|Hc].
    + constructor; [now constructor|]. constructor.
      * unfold quantity_ge. lia.
      * eapply Forall_impl; [|exact Hy]. unfold quantity_ge. intros a Ha. lia.
    + constructor; [exact IH|].
      eapply Permutation_Forall; [apply insert_desc_perm|].
      constructor; [|exact Hy]. unfold quantity_ge. lia.
Qed.

Lemma stable_sort_desc_ok : sorts_descending stable_sort_desc.
Proof.
  split; intros l; induction l as [|x t IH]; simpl.
  - constructor.
  - rewrite <- insert_desc_perm. now constructor.
  - constructor.
  - now apply insert_desc_sorted.
Qed.


(* ================================================================== *)
(** * Top selling items                                                 *)
(* ================================================================== *)

Lemma item_key_Some (j : joined_row) (i n : string) :
  item_key j = Some (i, n) <-> item_id j = Some i /\ item_name j = Some n.
Proof.
  unfold item_key. destruct (item_id j), (item_name j); split;
    try discriminate; try (intros [? ?]; discriminate); intuition congruence.
Qed.


Lemma item_totals_keys (joined : list joined_row) :
  map item_pair (item_totals joined) = group_keys item_key joined.
Proof.
  unfold item_totals. rewrite map_map.
  rewrite <- (groupby_sum_keys item_key quantity sum_number).
  apply map_ext. now intros [[i n] v].
Qed.


Lemma item_totals_key_present (joined : list joined_row) (i n : string) :
  In (i, n) (map item_pair (item_totals joined)) <->
  exists j, In j joined /\ item_id j = Some i /\ item_name j = Some n.
Proof.
  rewrite item_totals_keys, in_group_keys.
  split; intros (j & Hj & Hk); exists j; split; auto; now apply item_key_Some.
Qed.


Section TopItems.
Variable sort_values : list top_item_row -> list top_item_row.
Hypothesis sort_values_ok : sorts_descending sort_values.
Variable joined : list joined_row.






End TopItems.







(* ================================================================== *)
(** * The join                                                          *)
(* ================================================================== *)

Lemma joined_df_order_lines (data : dataset) :
  joined_df data =
  flat_map (order_lines (menu_items data) (order_items data)) (orders data).
Proof.
  unfold joined_df, merge.
  induction (orders data) as [|o t IH]; simpl; [reflexivity|].
  rewrite flat_map_app, map_app, IH. f_equal.
  unfold order_lines.
  induction (filter (fun i => cell_eqb (o_order_id o) (oi_order_id i))
                    (order_items data)) as [|i l IHl]; simpl; [reflexivity|].
  rewrite map_app, IHl. f_equal.
  unfold item_lines. rewrite map_map. reflexivity.
Qed.








(* ================================================================== *)
(** * What an order contributes to the daily revenue                    *)
(* ================================================================== *)














(** One order of 30.00 with two main courses is booked as 60.00, and
    that sum is exact. *)
Example two_mains_counted_twice :
  daily_revenue (transformed stable_sort_desc (two_mains 3000)) =
    [mkDaily jan1 "Main" (decimal 6000)] /\
  summed_exactly [Some (decimal 3000); Some (decimal 3000)].
Proof. split; vm_compute; reflexivity. Qed.


(* ================================================================== *)
(** * Determinism                                                       *)
(* ================================================================== *)

Lemma Forall2_eq_same {A} (l1 l2 : list A) : Forall2 eq l1 l2 -> l1 = l2.
Proof. induction 1; congruence. Qed.

Lemma same_tables_eq (d1 d2 : dataset) : same_tables d1 d2 -> d1 = d2.
Proof.
  destruct d1, d2. intros (Ho & Hi & Hm). simpl in *.
  apply Forall2_eq_same in Ho, Hi, Hm. congruence.
Qed.

(** C10. Two runs of [perform_transformations] on inputs that are equal
    row for row return, unless the library fails, the same mapping: the
    same joined data, the same daily revenue and the same top items in
    the same order, whatever the state of the database, of the
    connection and of the log in either run. *)
Theorem perform_transformations_deterministic
    (sort_values : list top_item_row -> list top_item_row) (E1 E2 : env)
    (d1 d2 : dataset) (w1 w2 : world) :
  same_tables d1 d2 ->
  pandas_fault E1 = None -> pandas_fault E2 = None ->
  exists res w1' w2',
    perform_transformations sort_values E1 d1 w1 = (Returned res, w1') /\
    perform_transformations sort_values E2 d2 w2 = (Returned res, w2') /\
    res = mkResults (joined_df d1) (daily_revenue_of (joined_df d1))
                    (firstn 10 (sort_values (item_totals (joined_df d1)))).
Proof.
  intros Hsame H1 H2. apply same_tables_eq in Hsame. subst d2.
  eexists. eexists. eexists. split; [|split].
  - apply perform_transformations_run. exact H1.
  - apply perform_transformations_run. exact H2.
  - reflexivity.
Qed.

Lemma perform_transformations_deterministic_witness :
  same_tables sample_data sample_data /\
  pandas_fault no_faults = None /\
  exists res w1' w2',
    perform_transformations stable_sort_desc no_faults sample_data
      (initial_world sample_data empty_tables) = (Returned res, w1') /\
    perform_transformations stable_sort_desc no_faults sample_data
      (connected_world (two_mains 0) empty_tables) = (Returned res, w2') /\
    res = mkResults (joined_df sample_data)
            (daily_revenue_of (joined_df sample_data))
            (firstn 10 (stable_sort_desc (item_totals (joined_df sample_data)))).
Proof.
  assert (Hs : same_tables sample_data sample_data).
  { repeat split; repeat constructor. }
  split; [exact Hs|]. split; [reflexivity|].
  apply (@perform_transformations_deterministic stable_sort_desc no_faults
           no_faults sample_data sample_data
           (initial_world sample_data empty_tables)
           (connected_world (two_mains 0) empty_tables) Hs);
    reflexivity.
Defined.

(* ================================================================== *)
(** * The quality checks                                                *)
(* ================================================================== *)

Lemma count_true_cons_le (b : bool) (l : list bool) :
  count_true l <= count_true (b :: l).
Proof. unfold count_true. simpl. destruct b; simpl; lia. Qed.

Lemma existsb_cell_eqb {K} `{Key K} (x : option K) (seen : list (option K)) :
  In x seen -> existsb (cell_eqb x) seen = true.
Proof.
  intros Hx. apply existsb_exists. exists x. split; [assumption|].
  now apply cell_eqb_eq.
Qed.

Lemma duplicated_from_flags {K} `{Key K} (column : list (option K)) :
  forall seen l1 x l2,
    column = l1 ++ x :: l2 -> In x seen \/ In x l1 ->
    0 < count_true (duplicated_from seen column).
Proof.
  induction column as [|a t IH]; intros seen l1 x l2 Hc Hx.
  - destruct l1; discriminate.
  - simpl. destruct l1 as [|b l1]; simpl in Hc; inversion Hc; subst.
    + destruct Hx as [Hx|[]]. rewrite (existsb_cell_eqb _ _ Hx).
      unfold count_true. simpl. lia.
    + eapply Nat.lt_le_trans; [|apply count_true_cons_le].
      apply (IH (b :: seen) l1 x l2 eq_refl).
      simpl in *. tauto.
Qed.

Lemma duplicated_flags_repeat {K} `{Key K} (column l1 l2 l3 : list (option K)) x :
  column = l1 ++ x :: l2 ++ x :: l3 -> 0 < count_true (duplicated column).
Proof.
  intros Hc. unfold duplicated.
  apply (@duplicated_from_flags _ _ column [] (l1 ++ x :: l2) x l3).
  - rewrite Hc, <- app_assoc. reflexivity.
  - right. apply in_or_app. right. simpl. auto.
Qed.

Lemma null_warning_is_warning df : forallb is_warning (null_warning df) = true.
Proof. unfold null_warning. now destruct (existsb _ _). Qed.

Lemma duplicate_warning_is_warning df :
  forallb is_warning (duplicate_warning df) = true.
Proof. unfold duplicate_warning. now destruct (0 <? _). Qed.

Lemma without_warnings_app (t1 t2 : list event) :
  without_warnings (t1 ++ t2) = without_warnings t1 ++ without_warnings t2.
Proof. apply filter_app. Qed.

Lemma without_warnings_all (t : list event) :
  forallb is_warning t = true -> without_warnings t = [].
Proof.
  induction t as [|ev t IH]; simpl; [reflexivity|].
  intros Hall. apply andb_true_iff in Hall. destruct Hall as [Hev Ht].
  rewrite Hev. simpl. now apply IH.
Qed.

(** C8. The quality checks return normally on every joined dataset and
    leave the world as it was but for warnings added to the log; when
    some order_id stands in two rows, the duplicate warning is among
    them. [perform_transformations] ends as it does without the checks:
    same outcome (the same joined data and aggregates, or the same
    exception), same world once the warnings are taken out of the log. *)
Theorem quality_checks_only_warn
    (sort_values : list top_item_row -> list top_item_row) (E : env)
    (data : dataset) (df : list joined_row) (w : world) :
  (exists warnings,
      _perform_data_quality_checks df w =
        (Returned tt, set_trace (warnings ++ trace w) w) /\
      forallb is_warning warnings = true /\
      (forall l1 x l2 l3,
          map order_id df = l1 ++ x :: l2 ++ x :: l3 ->
          exists n, 0 < n /\ In (Log WARNING (MsgDuplicateOrders n)) warnings)) /\
  let with_checks := perform_transformations sort_values E data w in
  let without := perform_transformations_without_checks sort_values E data w in
  fst with_checks = fst without /\
  set_trace (without_warnings (trace (snd with_checks))) (snd with_checks) =
  set_trace (without_warnings (trace (snd without))) (snd without).
Proof.
  split.
  - exists (duplicate_warning df ++ null_warning df). split; [|split].
    + rewrite quality_checks_run, <- app_assoc. reflexivity.
    + rewrite forallb_app, null_warning_is_warning, duplicate_warning_is_warning.
      reflexivity.
    + intros l1 x l2 l3 Hdup. apply duplicated_flags_repeat in Hdup.
      exists (count_true (duplicated (map order_id df))). split; [exact Hdup|].
      apply in_or_app. left. unfold duplicate_warning.
      apply Nat.ltb_lt in Hdup. rewrite Hdup. simpl. auto.
  - destruct (pandas_fault E) as [e|] eqn:HE.
    + unfold perform_transformations, perform_transformations_without_checks,
        try_except, bind, emit, may_fail, raise. rewrite HE. simpl.
      destruct (is_Exception e); simpl; split; reflexivity.
    + cbv zeta. rewrite perform_transformations_run by exact HE.
      unfold perform_transformations_without_checks,
        try_except, bind, emit, may_fail, raise, log, emit, ret.
      rewrite HE. simpl. split; [reflexivity|].
      unfold set_trace. simpl. f_equal. unfold without_warnings. simpl. f_equal.
      fold (without_warnings
              (duplicate_warning (joined_df data) ++
               null_warning (joined_df data) ++
               Call Mperform_transformations :: trace w)).
      rewrite !without_warnings_app.
      rewrite (without_warnings_all _ (duplicate_warning_is_warning _)).
      rewrite (without_warnings_all _ (null_warning_is_warning _)).
      reflexivity.
Qed.

(** Two line items of one order: the duplicate warning is logged. *)
Example two_mains_duplicate_warning :
  In (Log WARNING (MsgDuplicateOrders 1))
     (trace (snd (perform_transformations stable_sort_desc no_faults
                    (two_mains 3000)
                    (initial_world (two_mains 3000) empty_tables)))).
Proof. vm_compute. auto. Qed.

(* ================================================================== *)
(** * Saving the results                                                *)
(* ================================================================== *)

Lemma same_session_refl (w : world) : same_session w w.
Proof. repeat split. Qed.

Lemma same_session_trans (w1 w2 w3 : world) :
  same_session w1 w2 -> same_session w2 w3 -> same_session w1 w3.
Proof. unfold same_session. intuition congruence. Qed.

Lemma execute_cases (E : env) (st : statement) (w : world) (c : cursor) :
  cur w = Some c ->
  exists w', same_session w w' /\ stmt_no w' = S (stmt_no w) /\
    ((exists msg, execute E st w = (Raised (PgError msg), w') /\
                  pending w' = pending w /\
                  (db_fault E (stmt_no w) = Some msg \/
                   db_fault E (stmt_no w) = None /\
                   exec_statement st (pending w) = inl msg)) \/
     (execute E st w = (Returned tt, w') /\
      db_fault E (stmt_no w) = None /\
      exec_statement st (pending w) = inr (pending w'))).
Proof.
  intros Hc. unfold execute. rewrite Hc.
  destruct (db_fault E (stmt_no w)) as [msg|] eqn:Hf.
  - eexists. split; [|split]; [| |left; exists msg; split; [reflexivity|]];
      simpl; auto. repeat split.
  - destruct (exec_statement st (pending w)) as [msg|t] eqn:Hx.
    + eexists. split; [|split]; [| |left; exists msg; split; [reflexivity|]];
        simpl; auto. repeat split.
    + eexists. split; [|split]; [| |right; split; [reflexivity|]];
        simpl; auto. repeat split.
Qed.

Lemma run_statements_cases (E : env) (stmts : list statement) :
  forall (w : world) (c : cursor),
  cur w = Some c ->
  exists w', same_session w w' /\
    ((exists msg, for_each stmts (execute E) w = (Raised (PgError msg), w') /\
                  first_failure E (stmt_no w) stmts (pending w) = Some msg) \/
     (for_each stmts (execute E) w = (Returned tt, w') /\
      stmt_no w' = stmt_no w + List.length stmts /\
      apply_statements stmts (pending w) = inr (pending w') /\
      (forall k, k < List.length stmts -> db_fault E (stmt_no w + k) = None) /\
      first_failure E (stmt_no w) stmts (pending w) = db_fault E (stmt_no w'))).
Proof.
  induction stmts as [|st rest IH]; intros w c Hc.
  - exists w. split; [apply same_session_refl|]. right. simpl.
    split; [reflexivity|]. split; [lia|]. split; [reflexivity|].
    split; [intros k Hk; lia|reflexivity].
  - destruct (execute_cases E st w Hc) as (w1 & Hs1 & Hn1 & [Hbad|Hok]).
    + destruct Hbad as (msg & Hx & _ & Hwhy). exists w1. split; [exact Hs1|].
      left. exists msg. simpl. unfold bind. rewrite Hx. split; [reflexivity|].
      destruct Hwhy as [->|[-> ->]]; reflexivity.
    + destruct Hok as (Hx & Hf & Ht).
      assert (Hc1 : cur w1 = Some c) by (destruct Hs1 as (_ & _ & _ & ->); exact Hc).
      destruct (IH w1 c Hc1) as (w2 & Hs2 & Hrest).
      exists w2. split; [eapply same_session_trans; eassumption|].
      simpl. unfold bind. rewrite Hx, Hf, Ht, <- Hn1.
      destruct Hrest as [(msg & Hr & Hff)|(Hr & Hn2 & Ht2 & Hf2 & Hff)].
      * left. eauto.
      * right. split; [exact Hr|]. split; [lia|]. split; [exact Ht2|].
        split; [|exact Hff].
        intros k Hk. destruct k as [|k].
        -- now rewrite Nat.add_0_r.
        -- replace (stmt_no w + S k) with (stmt_no w1 + k) by lia.
           apply Hf2. simpl in Hk. lia.
Qed.

Lemma for_each_app_bind {A B} (f : A -> M unit) (l1 l2 : list A) (k : M B) (w : world) :
  (for_each l1 f ;; for_each l2 f ;; k) w = (for_each (l1 ++ l2) f ;; k) w.
Proof.
  revert w. induction l1 as [|x t IH]; intros w; simpl.
  - reflexivity.
  - unfold bind in *.
    destruct (f x w) as [[[]|e] w1]; [apply IH|reflexivity].
Qed.

Lemma for_each_map {A B} (g : A -> B) (f : B -> M unit) (l : list A) (w : world) :
  for_each l (fun x => f (g x)) w = for_each (map g l) f w.
Proof.
  revert w. induction l as [|x t IH]; intros w; simpl; [reflexivity|].
  unfold bind. destruct (f (g x) w) as [[[]|e] w1]; [apply IH|reflexivity].
Qed.

Lemma bind_ext {A B} (m : M A) (k1 k2 : A -> M B) (w : world) :
  (forall a w', k1 a w' = k2 a w') -> bind m k1 w = bind m k2 w.
Proof.
  intros Hk. unfold bind. destruct (m w) as [[a|e] w']; [apply Hk|reflexivity].
Qed.

Lemma bind_assoc {A B C} (m : M A) (f : A -> M B) (g : B -> M C) (w : world) :
  bind (bind m f) g w = bind m (fun a => bind (f a) g) w.
Proof. unfold bind. destruct (m w) as [[a|e] w']; reflexivity. Qed.

(** The body of the [try] of [save_results] sends [statements_of res],
    commits and logs. *)
Lemma save_body_statements (E : env) (res : results) (w : world) :
  (execute E CreateDailyRevenue ;;
   execute E CreateTopSellingItems ;;
   execute E TruncateDailyRevenue ;;
   execute E TruncateTopSellingItems ;;
   for_each (daily_revenue res) (fun row => execute E (InsertDailyRevenue row)) ;;
   for_each (top_items res) (fun row => execute E (InsertTopSellingItem row)) ;;
   commit E ;;
   log INFO MsgSaved) w =
  (for_each (statements_of res) (execute E) ;; commit E ;; log INFO MsgSaved) w.
Proof.
  unfold statements_of. cbn [app for_each].
  symmetry. rewrite bind_assoc. apply bind_ext. intros ? w1.
  rewrite bind_assoc. apply bind_ext. intros ? w2.
  rewrite bind_assoc. apply bind_ext. intros ? w3.
  rewrite bind_assoc. apply bind_ext. intros ? w'.
  symmetry. rewrite <- for_each_app_bind.
  apply eq_trans with
    ((for_each (map InsertDailyRevenue (daily_revenue res)) (execute E) ;;
      for_each (top_items res) (fun row => execute E (InsertTopSellingItem row)) ;;
      commit E ;; log INFO MsgSaved) w').
  - unfold bind at 1 4. rewrite for_each_map.
    destruct (for_each (map InsertDailyRevenue (daily_revenue res)) (execute E) w')
      as [[[]|e] w5]; reflexivity.
  - apply bind_ext. intros ? w4.
    unfold bind at 1 3. rewrite for_each_map. reflexivity.
Qed.

Lemma commit_cases (E : env) (w : world) (c : connection) :
  conn w = Some c ->
  exists w', same_session w (set_committed (committed w) w') /\
    ((exists msg, commit E w = (Raised (PgError msg), w') /\
                  committed w' = committed w /\ trace w' = trace w /\
                  db_fault E (stmt_no w) = Some msg) \/
     (commit E w = (Returned tt, w') /\ committed w' = pending w /\
      pending w' = pending w /\ db_fault E (stmt_no w) = None)).
Proof.
  intros Hc. unfold commit. rewrite Hc.
  destruct (db_fault E (stmt_no w)) as [msg|] eqn:Hf; eexists.
  - split; [|left; exists msg; split; [reflexivity|repeat split]].
    repeat split.
  - split; [|right; split; [reflexivity|repeat split]].
    repeat split.
Qed.

Lemma connected_same_session (w w' : world) :
  connected w -> same_session w w' -> connected w'.
Proof. unfold connected, same_session. intuition congruence. Qed.

Lemma save_results_unfold (E : env) (res : results) (w : world) :
  save_results E res w =
  try_except is_Error
    (for_each (statements_of res) (execute E) ;; commit E ;; log INFO MsgSaved)
    (fun e => log ERROR (MsgSaveError e) ;; rollback E ;; raise e)
    (set_trace (Call Msave_results :: trace w) w).
Proof.
  unfold save_results, bind at 1, emit, try_except.
  rewrite save_body_statements. reflexivity.
Qed.

(** The handler of lines 166-169 on an open session. *)
Lemma save_handler_run (E : env) (msg : string) (w : world) (c : connection) :
  conn w = Some c ->
  (log ERROR (MsgSaveError (PgError msg)) ;; rollback E ;; raise (PgError msg)) w =
  match rollback_fault E with
  | None =>
      (@Raised unit (PgError msg),
       set_trace (Rollback :: Log ERROR (MsgSaveError (PgError msg)) :: trace w)
                 (set_pending (committed w) w))
  | Some lost =>
      (@Raised unit (PgError lost),
       set_trace (Log ERROR (MsgSaveError (PgError msg)) :: trace w)
                 (set_pending (committed w) w))
  end.
Proof.
  intros Hc. unfold bind, log, emit, rollback, raise. simpl. rewrite Hc.
  destruct (rollback_fault E); reflexivity.
Qed.

(** How [save_results] ends on a connected session. Either a step fails:
    the handler logs the error of that step, and raises it after the
    rollback, or raises the error of the rollback in its place; both
    views of the tables are as they were committed. Or no step fails: it
    returns with its statements applied and committed. *)
Lemma save_results_cases (E : env) (res : results) (w : world) :
  connected w ->
  exists w',
    ((exists msg e tail,
        save_results E res w = (Raised e, w') /\
        first_failure E (stmt_no w) (statements_of res) (pending w) = Some msg /\
        committed w' = committed w /\ pending w' = committed w /\
        conn w' = conn w /\ cur w' = cur w /\
        match rollback_fault E with
        | None =>
            e = PgError msg /\
            trace w' = Rollback :: Log ERROR (MsgSaveError (PgError msg)) :: tail
        | Some lost =>
            e = PgError lost /\
            trace w' = Log ERROR (MsgSaveError (PgError msg)) :: tail
        end) \/
     (save_results E res w = (Returned tt, w') /\
      committed w' = pending w' /\
      conn w' = conn w /\ cur w' = cur w /\
      apply_statements (statements_of res) (pending w) = inr (committed w') /\
      (forall k, k < steps_of res -> db_fault E (stmt_no w + k) = None) /\
      first_failure E (stmt_no w) (statements_of res) (pending w) = None)).
Proof.
  intros [Hconn Hcur]. rewrite save_results_unfold.
  set (w0 := set_trace (Call Msave_results :: trace w) w).
  set (body := (for_each (statements_of res) (execute E) ;; commit E ;;
                log INFO MsgSaved)).
  change (first_failure E (stmt_no w) (statements_of res) (pending w))
    with (first_failure E (stmt_no w0) (statements_of res) (pending w0)).
  assert (Hcur0 : cur w0 = Some Cursor) by exact Hcur.
  destruct (run_statements_cases E (statements_of res) w0 Hcur0)
    as (w1 & Hs1 & Hrun).
  destruct Hs1 as (Hsrc1 & Hcom1 & Hconn1 & Hcur1).
  assert (Hconn1' : conn w1 = Some Connection) by (rewrite Hconn1; exact Hconn).
  destruct Hrun as [(msg & Hr & Hff)|(Hr & Hn & Ht & Hf & Hff)].
  - (* a statement failed *)
    assert (Hbody : body w0 = (Raised (PgError msg), w1)).
    { unfold body, bind. now rewrite Hr. }
    unfold try_except. rewrite Hbody. simpl.
    rewrite (save_handler_run E msg w1 Hconn1').
    destruct (rollback_fault E) as [lost|] eqn:Hrb.
    + eexists. left. exists msg, (PgError lost), (trace w1).
      split; [reflexivity|]. split; [exact Hff|]. simpl.
      rewrite Hcom1, Hcur1. repeat split. exact Hconn1.
    + eexists. left. exists msg, (PgError msg), (trace w1).
      split; [reflexivity|]. split; [exact Hff|]. simpl.
      rewrite Hcom1, Hcur1. repeat split. exact Hconn1.
  - destruct (commit_cases E w1 Hconn1') as (w2 & Hs2 & Hcommit).
    destruct Hs2 as (_ & _ & Hconn2 & Hcur2). simpl in Hconn2, Hcur2.
    destruct Hcommit as [(msg & Hc & Hcom2 & Htr2 & Hf2)|(Hc & Hcom2 & Hp2 & Hf2)].
    + (* the commit failed *)
      assert (Hbody : body w0 = (Raised (PgError msg), w2)).
      { unfold body, bind. now rewrite Hr, Hc. }
      assert (Hconn2' : conn w2 = Some Connection) by congruence.
      unfold try_except. rewrite Hbody. simpl.
      rewrite (save_handler_run E msg w2 Hconn2').
      rewrite Hf2 in Hff.
      destruct (rollback_fault E) as [lost|] eqn:Hrb.
      * eexists. left. exists msg, (PgError lost), (trace w2).
        split; [reflexivity|]. split; [exact Hff|]. simpl.
        rewrite Hcom2, Hcom1, Hcur2, Hcur1. repeat split.
        rewrite Hconn2. exact Hconn1.
      * eexists. left. exists msg, (PgError msg), (trace w2).
        split; [reflexivity|]. split; [exact Hff|]. simpl.
        rewrite Hcom2, Hcom1, Hcur2, Hcur1. repeat split.
        rewrite Hconn2. exact Hconn1.
    + (* committed *)
      assert (Hbody : body w0 =
                      (Returned tt, set_trace (Log INFO MsgSaved :: trace w2) w2)).
      { unfold body, bind. now rewrite Hr, Hc. }
      unfold try_except. rewrite Hbody.
      eexists. right. split; [reflexivity|]. simpl.
      rewrite Hcom2, Hp2, Hconn2, Hcur2, Hconn1, Hcur1.
      rewrite Hf2 in Hff.
      repeat split; try assumption.
      intros k Hk. unfold steps_of in Hk.
      destruct (Nat.eq_dec k (List.length (statements_of res))) as [->|Hne].
      * change (stmt_no w) with (stmt_no w0). rewrite <- Hn. exact Hf2.
      * apply (Hf k). lia.
Qed.

(** A fault on one of the steps, or a statement the engine refuses, is a
    first failure. *)
Lemma first_failure_of_fault (E : env) (stmts : list statement) :
  forall n t k msg,
    k <= List.length stmts -> db_fault E (n + k) = Some msg ->
    first_failure E n stmts t <> None.
Proof.
  induction stmts as [|st rest IH]; intros n t k msg Hk Hf; simpl.
  - simpl in Hk. replace k with 0 in Hf by lia.
    rewrite Nat.add_0_r in Hf. congruence.
  - destruct k as [|k].
    + rewrite Nat.add_0_r in Hf. rewrite Hf. discriminate.
    + destruct (db_fault E n); [discriminate|].
      destruct (exec_statement st t) as [m|t']; [discriminate|].
      apply (IH (S n) t' k msg); [simpl in Hk; lia|].
      now replace (S n + k) with (n + S k) by lia.
Qed.

Lemma first_failure_of_refusal (E : env) (stmts : list statement) :
  forall n t msg,
    apply_statements stmts t = inl msg -> first_failure E n stmts t <> None.
Proof.
  induction stmts as [|st rest IH]; intros n t msg Hx; simpl in *; [discriminate|].
  destruct (db_fault E n); [discriminate|].
  destruct (exec_statement st t) as [m|t']; [discriminate|].
  now apply (IH (S n) t' msg).
Qed.

(** C3, as amended. On a connected session, whenever [save_results]
    raises, the committed tables are exactly what they were before the
    call and nothing is pending, and the handler has logged the error of
    the first step that failed. When the rollback goes through, that
    error is the exception raised, right after the rollback; when the
    rollback itself fails on a lost connection, its error is raised
    instead. And [save_results] does raise whenever one of its steps
    fails: a fault on any statement or on the commit, or a statement the
    engine refuses. *)
Theorem save_results_rolls_back (E : env) (res : results) (w : world) :
  connected w ->
  (forall e w', save_results E res w = (Raised e, w') ->
      committed w' = committed w /\ pending w' = committed w /\
      exists msg tail,
        first_failure E (stmt_no w) (statements_of res) (pending w) = Some msg /\
        match rollback_fault E with
        | None =>
            e = PgError msg /\
            trace w' = Rollback :: Log ERROR (MsgSaveError (PgError msg)) :: tail
        | Some lost =>
            e = PgError lost /\
            trace w' = Log ERROR (MsgSaveError (PgError msg)) :: tail
        end) /\
  (forall msg,
      first_failure E (stmt_no w) (statements_of res) (pending w) = Some msg ->
      exists e w', save_results E res w = (Raised e, w')) /\
  (forall k msg, k < steps_of res -> db_fault E (stmt_no w + k) = Some msg ->
      exists e w', save_results E res w = (Raised e, w')) /\
  (forall msg, apply_statements (statements_of res) (pending w) = inl msg ->
      exists e w', save_results E res w = (Raised e, w')).
Proof.
  intros Hc.
  destruct (save_results_cases E res Hc) as (w1 & [Hbad|Hok]).
  - destruct Hbad as (msg & e0 & tail & Hrun & Hff & Hcom & Hpen & _ & _ & Hend).
    split; [|repeat split; intros; eauto].
    intros e w' He. rewrite Hrun in He. inversion He; subst.
    split; [exact Hcom|]. split; [exact Hpen|]. exists msg, tail.
    split; [exact Hff|exact Hend].
  - destruct Hok as (Hrun & _ & _ & _ & Happly & Hfault & Hff).
    split; [|split; [|split]].
    + intros e w' He. rewrite Hrun in He. discriminate.
    + intros msg Hf. rewrite Hff in Hf. discriminate.
    + intros k msg Hk Hf. rewrite (Hfault k Hk) in Hf. discriminate.
    + intros msg Hrej. rewrite Hrej in Happly. discriminate.
Qed.

Lemma save_results_rolls_back_witness :
  let E := fault_at 5 in
  let res := transformed stable_sort_desc sample_data in
  let w := connected_world sample_data yesterdays_tables in
  connected w /\
  (forall e w', save_results E res w = (Raised e, w') ->
      committed w' = committed w /\ pending w' = committed w /\
      exists msg tail,
        first_failure E (stmt_no w) (statements_of res) (pending w) = Some msg /\
        match rollback_fault E with
        | None =>
            e = PgError msg /\
            trace w' = Rollback :: Log ERROR (MsgSaveError (PgError msg)) :: tail
        | Some lost =>
            e = PgError lost /\
            trace w' = Log ERROR (MsgSaveError (PgError msg)) :: tail
        end) /\
  (forall msg,
      first_failure E (stmt_no w) (statements_of res) (pending w) = Some msg ->
      exists e w', save_results E res w = (Raised e, w')) /\
  (forall k msg, k < steps_of res -> db_fault E (stmt_no w + k) = Some msg ->
      exists e w', save_results E res w = (Raised e, w')) /\
  (forall msg, apply_statements (statements_of res) (pending w) = inl msg ->
      exists e w', save_results E res w = (Raised e, w')).
Proof.
  intros E res w.
  assert (Hc : connected w) by (split; reflexivity).
  split; [exact Hc|].
  exact (@save_results_rolls_back E res w Hc).
Defined.

(** C3 as stated fails: when the connection is lost, the rollback of the
    handler raises, and its error comes out of [save_results] in place of
    the failure of the step. The tables stay as they were. *)
Lemma lost_connection_hides_the_failure :
  let E := lost_at 5 in
  let res := transformed stable_sort_desc sample_data in
  let w := connected_world sample_data yesterdays_tables in
  first_failure E (stmt_no w) (statements_of res) (pending w) =
    Some "server closed the connection"%string /\
  fst (save_results E res w) = Raised (PgError "connection already closed") /\
  committed (snd (save_results E res w)) = yesterdays_tables /\
  ~ failure_reraised E res w.
Proof.
  intros E res w.
  assert (Hff : first_failure E (stmt_no w) (statements_of res) (pending w) =
                Some "server closed the connection"%string)
    by (vm_compute; reflexivity).
  assert (Hrun : save_results E res w =
                 (Raised (PgError "connection already closed"),
                  snd (save_results E res w)))
    by (vm_compute; reflexivity).
  split; [exact Hff|]. split; [vm_compute; reflexivity|].
  split; [vm_compute; reflexivity|].
  intros Hre. destruct (Hre _ _ Hrun) as (msg & Hmsg & He).
  rewrite Hff in Hmsg. inversion Hmsg; subst msg. discriminate.
Qed.

(** The connection breaks on the second insert: yesterday's rows stay. *)
Example broken_save_keeps_yesterdays_tables :
  let out := save_results (fault_at 5) (transformed stable_sort_desc sample_data)
                          (connected_world sample_data yesterdays_tables) in
  fst out = Raised (PgError "server closed the connection") /\
  committed (snd out) = yesterdays_tables /\
  pending (snd out) = yesterdays_tables.
Proof. vm_compute. auto. Qed.

(** An item listed under two names is rejected by the primary key of
    [top_selling_items]; the save is rolled back. *)
Example renamed_item_save_rolled_back :
  let out := save_results no_faults (transformed stable_sort_desc renamed_item_data)
                          (connected_world renamed_item_data yesterdays_tables) in
  fst out = Raised (PgError "duplicate key value violates top_selling_items_pkey") /\
  committed (snd out) = yesterdays_tables.
Proof. vm_compute. auto. Qed.

(* ================================================================== *)
(** * Saving twice                                                      *)
(* ================================================================== *)

Lemma apply_statements_app (l1 l2 : list statement) (t : tables) :
  apply_statements (l1 ++ l2) t =
  match apply_statements l1 t with
  | inl msg => inl msg
  | inr t' => apply_statements l2 t'
  end.
Proof.
  revert t. induction l1 as [|st rest IH]; intros t; simpl; [reflexivity|].
  destruct (exec_statement st t); [reflexivity|apply IH].
Qed.

Lemma apply_create_truncate (t : tables) :
  apply_statements [CreateDailyRevenue; CreateTopSellingItems;
                    TruncateDailyRevenue; TruncateTopSellingItems] t =
  inr (mkTables (Some []) (Some [])).
Proof. destruct t as [[d|] [i|]]; reflexivity. Qed.

Lemma apply_daily_inserts (rows acc : list daily_revenue_row)
    (top : option (list top_item_row)) (t' : tables) :
  apply_statements (map InsertDailyRevenue rows) (mkTables (Some acc) top) = inr t' ->
  t' = mkTables (Some (acc ++ rows)) top.
Proof.
  revert acc. induction rows as [|r rest IH]; intros acc; simpl.
  - rewrite app_nil_r. congruence.
  - destruct (daily_revenue_accepts acc r); [|discriminate].
    intros Ht. apply IH in Ht. now rewrite <- app_assoc in Ht.
Qed.

Lemma apply_top_inserts (rows acc : list top_item_row)
    (daily : option (list daily_revenue_row)) (t' : tables) :
  apply_statements (map InsertTopSellingItem rows) (mkTables daily (Some acc)) = inr t' ->
  t' = mkTables daily (Some (acc ++ rows)).
Proof.
  revert acc. induction rows as [|r rest IH]; intros acc; simpl.
  - rewrite app_nil_r. congruence.
  - destruct (top_selling_items_accepts acc r); [|discriminate].
    intros Ht. apply IH in Ht. now rewrite <- app_assoc in Ht.
Qed.

(** Whatever the tables held, the statements of [save_results], when
    none is rejected, leave exactly the rows of the two aggregates. *)
Lemma apply_statements_of (res : results) (t t' : tables) :
  apply_statements (statements_of res) t = inr t' ->
  t' = mkTables (Some (daily_revenue res)) (Some (top_items res)).
Proof.
  unfold statements_of. rewrite apply_statements_app, apply_create_truncate.
  rewrite apply_statements_app.
  destruct (apply_statements (map InsertDailyRevenue (daily_revenue res)) _)
    as [msg|t1] eqn:Hd; [discriminate|].
  apply apply_daily_inserts in Hd. subst t1. intros Ht.
  apply apply_top_inserts in Ht. exact Ht.
Qed.

(** C4. Two successful runs of [save_results] in succession with the
    same aggregates leave the tables as one run does: after either, both
    tables hold exactly the rows of the aggregates, in their order,
    whatever they held before. *)
Theorem save_results_idempotent (E : env) (res : results) (w w1 w2 : world) :
  connected w ->
  save_results E res w = (Returned tt, w1) ->
  save_results E res w1 = (Returned tt, w2) ->
  committed w2 = committed w1 /\
  pending w2 = pending w1 /\
  committed w1 = mkTables (Some (daily_revenue res)) (Some (top_items res)).
Proof.
  intros Hc H1 H2.
  destruct (save_results_cases E res Hc) as (w1' & [Hbad|Hok]).
  { destruct Hbad as (msg & e0 & tail & Hrun & _). rewrite Hrun in H1. discriminate. }
  destruct Hok as (Hrun & Hcp1 & Hconn1 & Hcur1 & Happly1 & _).
  rewrite Hrun in H1. inversion H1; subst w1'. clear H1.
  assert (Hc1 : connected w1).
  { destruct Hc as [Hconn Hcur]. split; congruence. }
  destruct (save_results_cases E res Hc1) as (w2' & [Hbad|Hok]).
  { destruct Hbad as (msg & e0 & tail & Hrun2 & _). rewrite Hrun2 in H2. discriminate. }
  destruct Hok as (Hrun2 & Hcp2 & _ & _ & Happly2 & _).
  rewrite Hrun2 in H2. inversion H2; subst w2'. clear H2.
  apply apply_statements_of in Happly1, Happly2.
  rewrite <- Hcp2, <- Hcp1, Happly2, Happly1. repeat split.
Qed.

Lemma save_results_idempotent_witness :
  let res := transformed stable_sort_desc sample_data in
  let w := connected_world sample_data yesterdays_tables in
  let w1 := snd (save_results no_faults res w) in
  let w2 := snd (save_results no_faults res w1) in
  connected w /\
  save_results no_faults res w = (Returned tt, w1) /\
  save_results no_faults res w1 = (Returned tt, w2) /\
  committed w2 = committed w1 /\
  pending w2 = pending w1 /\
  committed w1 = mkTables (Some (daily_revenue res)) (Some (top_items res)).
Proof.
  intros res w w1 w2.
  assert (Hc : connected w) by (split; reflexivity).
  assert (H1 : save_results no_faults res w = (Returned tt, w1))
    by (vm_compute; reflexivity).
  assert (H2 : save_results no_faults res w1 = (Returned tt, w2))
    by (vm_compute; reflexivity).
  split; [exact Hc|]. split; [exact H1|]. split; [exact H2|].
  exact (@save_results_idempotent no_faults res w w1 w2 Hc H1 H2).
Defined.

(* ================================================================== *)
(** * Closing the connection                                            *)
(* ================================================================== *)

Lemma connect_raised_no_cursor (E : env) (w w1 : world) (e : exn) :
  cur w = None -> connect E w = (Raised e, w1) -> cur w1 = None.
Proof.
  intros Hcur. unfold connect, try_except, bind, emit, log, emit, may_fail, raise, ret.
  destruct (connect_fault E) as [e1|]; simpl.
  - destruct (is_Error e1); simpl; intros Hr; inversion Hr; subst; exact Hcur.
  - destruct (cursor_fault E) as [e2|]; simpl.
    + destruct (is_Error e2); simpl; intros Hr; inversion Hr; subst; exact Hcur.
    + discriminate.
Qed.

Lemma close_without_cursor (w : world) :
  cur w = None ->
  close w =
  (Returned tt,
   match conn w with
   | Some _ =>
       set_trace (Log INFO MsgClosed :: SessionClosed :: Call Mclose :: trace w)
                 (set_pending (committed w) w)
   | None => set_trace (Call Mclose :: trace w) w
   end).
Proof.
  intros Hcur. unfold close, bind, emit, conn_close, log, emit, ret. simpl.
  rewrite Hcur. simpl. destruct (conn w); reflexivity.
Qed.

(** C7. On a [DatabaseConnection] whose cursor was never opened, [close]
    returns normally: with no session either it only records the call,
    with a session it releases the session (and nothing else) and logs.
    That is the state of a fresh object, and the state any failure of
    [connect] leaves a fresh object in, so [close] returns normally after
    [connect] failed at any point. *)
Theorem close_safe_when_not_connected (E : env) (w : world) :
  cur w = None ->
  cur (snd (DatabaseConnection_init w)) = None /\
  close w =
  (Returned tt,
   match conn w with
   | Some _ =>
       set_trace (Log INFO MsgClosed :: SessionClosed :: Call Mclose :: trace w)
                 (set_pending (committed w) w)
   | None => set_trace (Call Mclose :: trace w) w
   end) /\
  (forall e w1, connect E w = (Raised e, w1) ->
     exists w2, close w1 = (Returned tt, w2)).
Proof.
  intros Hcur. split; [reflexivity|]. split.
  - now apply close_without_cursor.
  - intros e w1 Hr. apply connect_raised_no_cursor in Hr; [|exact Hcur].
    rewrite (close_without_cursor _ Hr). eauto.
Qed.

Lemma close_safe_when_not_connected_witness :
  let w := snd (connect no_cursor (initial_world sample_data empty_tables)) in
  cur w = None /\
  cur (snd (DatabaseConnection_init w)) = None /\
  close w =
  (Returned tt,
   match conn w with
   | Some _ =>
       set_trace (Log INFO MsgClosed :: SessionClosed :: Call Mclose :: trace w)
                 (set_pending (committed w) w)
   | None => set_trace (Call Mclose :: trace w) w
   end) /\
  (forall e w1, connect no_cursor w = (Raised e, w1) ->
     exists w2, close w1 = (Returned tt, w2)).
Proof.
  intros w.
  assert (Hcur : cur w = None) by reflexivity.
  split; [exact Hcur|].
  exact (@close_safe_when_not_connected no_cursor w Hcur).
Defined.

(** A fresh object: [close] only records that it was called. *)
Example close_fresh :
  close (initial_world sample_data empty_tables) =
  (Returned tt,
   set_trace [Call Mclose] (initial_world sample_data empty_tables)).
Proof. reflexivity. Qed.

(** The session was opened and the cursor refused: [close] releases the
    session only. *)
Example close_session_only :
  let w := snd (connect no_cursor (initial_world sample_data empty_tables)) in
  conn w = Some Connection /\ cur w = None /\
  fst (close w) = Returned tt /\
  firstn 3 (trace (snd (close w))) =
    [Log INFO MsgClosed; SessionClosed; Call Mclose].
Proof. vm_compute. auto. Qed.

(* ================================================================== *)
(** * The driver                                                        *)
(* ================================================================== *)

Lemma quiet_ret {A} (a : A) : quiet (ret a).
Proof. intros w. exists []. simpl. auto. Qed.

Lemma quiet_raise {A} (e : exn) : quiet (@raise A e).
Proof. intros w. exists []. simpl. auto. Qed.

Lemma quiet_bind {A B} (m : M A) (k : A -> M B) :
  quiet m -> (forall a, quiet (k a)) -> quiet (bind m k).
Proof.
  intros Hm Hk w. destruct (Hm w) as (t1 & H1 & N1). unfold bind.
  destruct (m w) as [[a|e] w1]; simpl in *.
  - destruct (Hk a w1) as (t2 & H2 & N2). exists (t2 ++ t1).
    rewrite H2, H1, app_assoc. split; [reflexivity|].
    intros Hin. apply in_app_or in Hin. tauto.
  - exists t1. auto.
Qed.

Lemma quiet_try_except {A} (catches : exn -> bool) (body : M A)
    (handler : exn -> M A) :
  quiet body -> (forall e, quiet (handler e)) ->
  quiet (try_except catches body handler).
Proof.
  intros Hb Hh w. destruct (Hb w) as (t1 & H1 & N1). unfold try_except.
  destruct (body w) as [[a|e] w1]; simpl in *.
  - exists t1. auto.
  - destruct (catches e); [|exists t1; auto].
    destruct (Hh e w1) as (t2 & H2 & N2). exists (t2 ++ t1).
    rewrite H2, H1, app_assoc. split; [reflexivity|].
    intros Hin. apply in_app_or in Hin. tauto.
Qed.

Lemma quiet_for_each {A} (l : list A) (f : A -> M unit) :
  (forall x, quiet (f x)) -> quiet (for_each l f).
Proof.
  intros Hf. induction l as [|x t IH]; simpl.
  - apply quiet_ret.
  - apply quiet_bind; auto.
Qed.

Lemma quiet_emit (ev : event) : ev <> Call Mclose -> quiet (emit ev).
Proof.
  intros Hev w. exists [ev]. simpl. split; [reflexivity|]. intros [H|[]]. auto.
Qed.

Lemma quiet_log (l : level) (msg : message) : quiet (log l msg).
Proof. apply quiet_emit. discriminate. Qed.

Lemma quiet_may_fail (fault : option exn) : quiet (may_fail fault).
Proof. destruct fault; [apply quiet_raise|apply quiet_ret]. Qed.

(** A step that leaves the trace alone. *)
Lemma quiet_silent {A} (m : M A) :
  (forall w, trace (snd (m w)) = trace w) -> quiet m.
Proof. intros Hm w. exists []. simpl. auto. Qed.

Lemma quiet_execute (E : env) (st : statement) : quiet (execute E st).
Proof.
  intros w. unfold execute. destruct (cur w); [|exists []; simpl; auto].
  exists [Execute st].
  destruct (db_fault E (stmt_no w)); [|destruct (exec_statement st (pending w))];
    simpl; (split; [reflexivity|intros [H|[]]; discriminate]).
Qed.

Lemma quiet_commit (E : env) : quiet (commit E).
Proof.
  intros w. unfold commit. destruct (conn w); [|exists []; simpl; auto].
  destruct (db_fault E (stmt_no w)); simpl.
  - exists []. simpl. auto.
  - exists [Commit]. split; [reflexivity|intros [H|[]]; discriminate].
Qed.

Lemma quiet_rollback (E : env) : quiet (rollback E).
Proof.
  intros w. unfold rollback. destruct (conn w); [|exists []; simpl; auto].
  destruct (rollback_fault E); [exists []; simpl; auto|].
  exists [Rollback]. split; [reflexivity|intros [H|[]]; discriminate].
Qed.

Lemma quiet_read_sql (E : env) {A} (n : nat) (table : dataset -> list A) :
  quiet (read_sql E n table).
Proof.
  apply quiet_silent. intros w. unfold read_sql.
  destruct (conn w); [destruct (read_fault E n)|]; reflexivity.
Qed.

Lemma quiet_quality_checks (df : list joined_row) :
  quiet (_perform_data_quality_checks df).
Proof.
  intros w. rewrite quality_checks_run. simpl.
  exists (duplicate_warning df ++ null_warning df).
  rewrite app_assoc. split; [reflexivity|].
  intros Hin. apply in_app_or in Hin.
  unfold duplicate_warning, null_warning in Hin.
  destruct (0 <? _), (existsb _ _); simpl in Hin;
    intuition discriminate.
Qed.

Ltac quiet_steps :=
  repeat first
    [ apply quiet_quality_checks
    | apply quiet_bind; [|intros ?; cbv zeta]
    | apply quiet_try_except; [|intros ?]
    | apply quiet_for_each; intros ?
    | apply quiet_log
    | apply quiet_may_fail
    | apply quiet_ret
    | apply quiet_raise
    | apply quiet_execute
    | apply quiet_commit
    | apply quiet_rollback
    | apply quiet_read_sql
    | apply quiet_emit; discriminate
    | apply quiet_silent; intros ?; reflexivity ].

Lemma quiet_connect (E : env) : quiet (connect E).
Proof. unfold connect. quiet_steps. Qed.

Lemma quiet_load_data (E : env) : quiet (load_data E).
Proof. unfold load_data. quiet_steps. Qed.

Lemma quiet_perform_transformations sort_values (E : env) (data : dataset) :
  quiet (perform_transformations sort_values E data).
Proof. unfold perform_transformations. cbv zeta. quiet_steps. Qed.

Lemma quiet_save_results (E : env) (res : results) : quiet (save_results E res).
Proof. unfold save_results. quiet_steps. Qed.

Lemma quiet_print_results (E : env) (res : results) : quiet (print_results E res).
Proof. unfold print_results. quiet_steps. Qed.

(** [close] records its call first and calls no method afterwards. *)
Lemma close_trace (w : world) :
  exists after, trace (snd (close w)) = after ++ Call Mclose :: trace w /\
                forall m, ~ In (Call m) after.
Proof.
  unfold close, bind, emit, cur_close, conn_close, log, emit, ret.
  destruct w as [src com pen [c|] [k|] n t]; simpl.
  - exists [Log INFO MsgClosed; SessionClosed; CursorClosed].
    split; [reflexivity|]. intros m Hin. simpl in Hin. intuition discriminate.
  - exists [Log INFO MsgClosed; SessionClosed].
    split; [reflexivity|]. intros m Hin. simpl in Hin. intuition discriminate.
  - exists [CursorClosed].
    split; [reflexivity|]. intros m Hin. simpl in Hin. intuition discriminate.
  - exists []. split; [reflexivity|]. intros m Hin. exact Hin.
Qed.

(** C6. Whatever the environment does to the run, that is whether all
    five stages succeed or [connect], [load_data],
    [perform_transformations], [save_results] or [print_results] raises,
    [main] calls [DatabaseConnection.close] exactly once, and calls no
    method after it: [close] is the last thing the driver does before it
    returns or lets the exception through. *)
Theorem main_closes_once
    (sort_values : list top_item_row -> list top_item_row) (E : env) (w : world) :
  closes_once (trace w) (trace (snd (main sort_values E w))).
Proof.
  unfold main, bind at 1, DatabaseConnection_init, try_finally.
  set (w0 := set_cur None (set_conn None w)).
  set (pipeline := try_except is_Exception _ _).
  assert (Hq : quiet pipeline).
  { unfold pipeline. apply quiet_try_except.
    - apply quiet_bind; [apply quiet_connect|intros _].
      apply quiet_bind; [apply quiet_load_data|intros data].
      apply quiet_bind; [apply quiet_perform_transformations|intros res].
      apply quiet_bind; [apply quiet_save_results|intros _].
      apply quiet_print_results.
    - intros e. quiet_steps. }
  destruct (Hq w0) as (before & Hbefore & Hnone).
  destruct (pipeline w0) as [r w1]. simpl in Hbefore.
  destruct (close_trace w1) as (after & Hafter & Hcalls).
  exists before, after. split; [|split; assumption].
  destruct (close w1) as [[[]|e] w2]; simpl in *; rewrite Hafter, Hbefore;
    reflexivity.
Qed.

(** A run without faults: all five stages, then [close]; the tables hold
    the aggregates. *)
Example main_succeeds :
  let out := main stable_sort_desc no_faults
                  (initial_world sample_data yesterdays_tables) in
  fst out = Returned tt /\
  calls (trace (snd out)) =
    [Mclose; Mprint_results; Msave_results; Mperform_transformations;
     Mload_data; Mconnect] /\
  committed (snd out) =
    mkTables (Some [mkDaily jan1 "Main" (decimal 3000)])
             (Some [mkTop "I1" "Burger" (Int64 2)]).
Proof. vm_compute. auto. Qed.

(** The connection breaks during the save: the exception comes through,
    [close] has run once, yesterday's rows are still there. *)
Example main_save_fails :
  let out := main stable_sort_desc (fault_at 5)
                  (initial_world sample_data yesterdays_tables) in
  fst out = Raised (PgError "server closed the connection") /\
  calls (trace (snd out)) =
    [Mclose; Msave_results; Mperform_transformations; Mload_data; Mconnect] /\
  committed (snd out) = yesterdays_tables.
Proof. vm_compute. auto. Qed.

(** The cursor is refused: nothing but [connect] and [close] runs. *)
Example main_connect_fails :
  let out := main stable_sort_desc no_cursor
                  (initial_world sample_data yesterdays_tables) in
  fst out = Raised (PgError "cursor refused") /\
  calls (trace (snd out)) = [Mclose; Mconnect].
Proof. vm_compute. auto. Qed.

(* ================================================================== *)
(** * When the save goes through                                        *)
(* ================================================================== *)

Lemma existsb_key_In {A K} `{Key K} (key : A -> K) (k : K) (rows : list A) :
  existsb (fun x => key_eqb (key x) k) rows = true <-> In k (map key rows).
Proof.
  rewrite existsb_exists, in_map_iff. split.
  - intros (x & Hx & Hk). apply key_eqb_eq in Hk. eauto.
  - intros (x & Hk & Hx). exists x. split; [assumption|]. now apply key_eqb_eq.
Qed.

Lemma daily_revenue_accepts_iff (acc : list daily_revenue_row) (r : daily_revenue_row) :
  daily_revenue_accepts acc r = true <-> ~ In (daily_key r) (map daily_key acc).
Proof.
  unfold daily_revenue_accepts. rewrite negb_true_iff.
  rewrite <- (existsb_key_In daily_key (daily_key r) acc).
  unfold daily_key at 2.
  destruct (existsb _ acc); intuition congruence.
Qed.

Lemma top_selling_items_accepts_iff (acc : list top_item_row) (r : top_item_row) :
  top_selling_items_accepts acc r = true <->
  ~ In (ti_item_id r) (map ti_item_id acc).
Proof.
  unfold top_selling_items_accepts. rewrite negb_true_iff.
  rewrite <- (existsb_key_In ti_item_id (ti_item_id r) acc).
  destruct (existsb _ acc); intuition congruence.
Qed.

Lemma apply_daily_inserts_ok (rows acc : list daily_revenue_row)
    (top : option (list top_item_row)) :
  (exists t', apply_statements (map InsertDailyRevenue rows)
                               (mkTables (Some acc) top) = inr t') <->
  NoDup (map daily_key rows) /\
  (forall r, In r rows -> ~ In (daily_key r) (map daily_key acc)).
Proof.
  revert acc. induction rows as [|r rest IH]; intros acc; simpl.
  - split; [intros _; split; [constructor|tauto]|eauto].
  - destruct (daily_revenue_accepts acc r) eqn:Hacc.
    + apply daily_revenue_accepts_iff in Hacc.
      rewrite IH. split.
      * intros (Hnd & Hfresh). split.
        -- constructor; [|assumption]. intros Hin. apply in_map_iff in Hin.
           destruct Hin as (x & Hk & Hx). apply (Hfresh x Hx).
           rewrite map_app, in_app_iff. right. simpl. auto.
        -- intros x [<-|Hx]; [assumption|]. intros Hin. apply (Hfresh x Hx).
           rewrite map_app, in_app_iff. now left.
      * intros (Hnd & Hfresh). inversion Hnd as [|? ? Hr Hnd']; subst.
        split; [assumption|].
        intros x Hx Hin. rewrite map_app, in_app_iff in Hin.
        destruct Hin as [Hin|[Hk|[]]].
        -- apply (Hfresh x); auto.
        -- apply Hr. rewrite Hk. now apply in_map.
    + split; [intros [t' Ht]; discriminate|].
      intros (Hnd & Hfresh). exfalso.
      assert (Htrue : daily_revenue_accepts acc r = true).
      { apply daily_revenue_accepts_iff. apply Hfresh. auto. }
      congruence.
Qed.

Lemma apply_top_inserts_ok (rows acc : list top_item_row)
    (daily : option (list daily_revenue_row)) :
  (exists t', apply_statements (map InsertTopSellingItem rows)
                               (mkTables daily (Some acc)) = inr t') <->
  NoDup (map ti_item_id rows) /\
  (forall r, In r rows -> ~ In (ti_item_id r) (map ti_item_id acc)).
Proof.
  revert acc. induction rows as [|r rest IH]; intros acc; simpl.
  - split; [intros _; split; [constructor|tauto]|eauto].
  - destruct (top_selling_items_accepts acc r) eqn:Hacc.
    + apply top_selling_items_accepts_iff in Hacc.
      rewrite IH. split.
      * intros (Hnd & Hfresh). split.
        -- constructor; [|assumption]. intros Hin. apply in_map_iff in Hin.
           destruct Hin as (x & Hk & Hx). apply (Hfresh x Hx).
           rewrite map_app, in_app_iff. right. simpl. auto.
        -- intros x [<-|Hx]; [assumption|]. intros Hin. apply (Hfresh x Hx).
           rewrite map_app, in_app_iff. now left.
      * intros (Hnd & Hfresh). inversion Hnd as [|? ? Hr Hnd']; subst.
        split; [assumption|].
        intros x Hx Hin. rewrite map_app, in_app_iff in Hin.
        destruct Hin as [Hin|[Hk|[]]].
        -- apply (Hfresh x); auto.
        -- apply Hr. rewrite Hk. now apply in_map.
    + split; [intros [t' Ht]; discriminate|].
      intros (Hnd & Hfresh). exfalso.
      assert (Htrue : top_selling_items_accepts acc r = true).
      { apply top_selling_items_accepts_iff. apply Hfresh. auto. }
      congruence.
Qed.

(** The engine takes all statements of a save exactly when no primary
    key occurs twice, whatever the tables held. *)
Lemma apply_statements_of_ok (res : results) (t : tables) :
  (exists t', apply_statements (statements_of res) t = inr t') <->
  keys_unique res.
Proof.
  unfold statements_of, keys_unique.
  rewrite apply_statements_app, apply_create_truncate, apply_statements_app.
  split.
  - intros [t' Ht].
    destruct (apply_statements (map InsertDailyRevenue (daily_revenue res)) _)
      as [msg|t1] eqn:Hd; [discriminate|].
    pose proof (apply_daily_inserts _ _ _ Hd) as Ht1. subst t1.
    assert (Hd' : exists t1, apply_statements
                   (map InsertDailyRevenue (daily_revenue res))
                   (mkTables (Some []) (Some [])) = inr t1) by eauto.
    apply apply_daily_inserts_ok in Hd'.
    assert (Ht' : exists t2, apply_statements
                   (map InsertTopSellingItem (top_items res))
                   (mkTables (Some ([] ++ daily_revenue res)) (Some [])) = inr t2)
      by eauto.
    apply apply_top_inserts_ok in Ht'. tauto.
  - intros [Hdn Htn].
    assert (Hd : exists t1, apply_statements
                   (map InsertDailyRevenue (daily_revenue res))
                   (mkTables (Some []) (Some [])) = inr t1).
    { apply apply_daily_inserts_ok. split; auto. }
    destruct Hd as [t1 Hd]. rewrite Hd.
    apply apply_daily_inserts in Hd. subst t1.
    apply apply_top_inserts_ok. split; auto.
Qed.

Lemma run_statements_returns (E : env) (stmts : list statement) :
  forall (w : world) (c : cursor) (t : tables),
  cur w = Some c ->
  (forall k, k < List.length stmts -> db_fault E (stmt_no w + k) = None) ->
  apply_statements stmts (pending w) = inr t ->
  exists w', for_each stmts (execute E) w = (Returned tt, w').
Proof.
  induction stmts as [|st rest IH]; intros w c t Hc Hf Ht.
  - exists w. reflexivity.
  - simpl in Ht.
    destruct (exec_statement st (pending w)) as [msg|t1] eqn:Hx; [discriminate|].
    destruct (execute_cases E st w Hc) as (w1 & Hs1 & Hn1 & [Hbad|Hok]).
    + destruct Hbad as (msg & _ & _ & [Hfault|[_ Hrej]]).
      * rewrite <- (Nat.add_0_r (stmt_no w)), Hf in Hfault; [discriminate|simpl; lia].
      * congruence.
    + destruct Hok as (Hrun & _ & Hp1).
      assert (Hc1 : cur w1 = Some c) by (destruct Hs1 as (_ & _ & _ & ->); exact Hc).
      destruct (IH w1 c t Hc1) as (w2 & Hrest).
      * intros k Hk. replace (stmt_no w1 + k) with (stmt_no w + S k) by lia.
        apply Hf. simpl. lia.
      * rewrite Hx in Hp1. inversion Hp1; subst. exact Ht.
      * exists w2. simpl. unfold bind. now rewrite Hrun.
Qed.

Lemma save_results_returns (E : env) (res : results) (w : world) :
  connected w ->
  no_fault_during_save E (stmt_no w) res ->
  keys_unique res ->
  exists w', save_results E res w = (Returned tt, w').
Proof.
  intros [Hconn Hcur] Hnf Hacc. rewrite save_results_unfold.
  set (w0 := set_trace (Call Msave_results :: trace w) w).
  assert (Hcur0 : cur w0 = Some Cursor) by exact Hcur.
  destruct (proj2 (apply_statements_of_ok res (pending w0)) Hacc) as [t Ht].
  assert (Hnf0 : forall k, k < List.length (statements_of res) ->
                           db_fault E (stmt_no w0 + k) = None).
  { intros k Hk. apply Hnf. unfold steps_of. lia. }
  destruct (run_statements_returns E (statements_of res) w0 Hcur0 Hnf0 Ht)
    as (w1 & Hrun).
  destruct (run_statements_cases E (statements_of res) w0 Hcur0)
    as (w1' & Hs1 & [(msg & Hr & _)|(Hr & Hn & _)]);
    rewrite Hrun in Hr; inversion Hr; subst w1'.
  destruct Hs1 as (_ & _ & Hconn1 & _).
  assert (Hconn1' : conn w1 = Some Connection) by (rewrite Hconn1; exact Hconn).
  destruct (commit_cases E w1 Hconn1') as (w2 & _ & [Hbad|Hok]).
  - destruct Hbad as (msg & _ & _ & _ & Hfault).
    rewrite Hn, Hnf in Hfault; [discriminate|unfold steps_of; lia].
  - destruct Hok as (Hc & _). eexists.
    unfold try_except, bind. rewrite Hrun, Hc. reflexivity.
Qed.

(** X1. On a connected session [save_results] returns exactly when no
    step of it meets a fault of the environment and no primary key
    occurs twice in the results: no (order_date, category) pair in
    [daily_revenue], no item_id in [top_items]. Nothing is pending once
    it has returned. *)
Theorem save_results_returns_iff (E : env) (res : results) (w : world) :
  connected w ->
  ((exists w', save_results E res w = (Returned tt, w')) <->
   no_fault_during_save E (stmt_no w) res /\ keys_unique res) /\
  (forall w', save_results E res w = (Returned tt, w') ->
     pending w' = committed w').
Proof.
  intros Hc. split; [split|].
  - intros [w' Hrun].
    destruct (save_results_cases E res Hc) as (w1 & [Hbad|Hok]).
    + destruct Hbad as (msg & e0 & tail & Hr & _). rewrite Hr in Hrun. discriminate.
    + destruct Hok as (_ & _ & _ & _ & Happly & Hfault & _). split; [exact Hfault|].
      apply (apply_statements_of_ok res (pending w)). eauto.
  - intros [Hnf Hacc]. now apply save_results_returns.
  - intros w' Hrun.
    destruct (save_results_cases E res Hc) as (w1 & [Hbad|Hok]).
    + destruct Hbad as (msg & e0 & tail & Hr & _). rewrite Hr in Hrun. discriminate.
    + destruct Hok as (Hr & Hcp & _).
      rewrite Hr in Hrun. inversion Hrun; subst w1. congruence.
Qed.

Lemma save_results_returns_iff_witness :
  let res := transformed stable_sort_desc sample_data in
  let w := connected_world sample_data yesterdays_tables in
  connected w /\
  ((exists w', save_results no_faults res w = (Returned tt, w')) <->
   no_fault_during_save no_faults (stmt_no w) res /\ keys_unique res) /\
  (forall w', save_results no_faults res w = (Returned tt, w') ->
     pending w' = committed w').
Proof.
  intros res w.
  assert (Hc : connected w) by (split; reflexivity).
  split; [exact Hc|].
  exact (@save_results_returns_iff no_faults res w Hc).
Defined.

(** X2. Results in which two rows of [top_items] carry one item_id, or
    two rows of [daily_revenue] one (order_date, category) pair, are
    never saved: on a connected session [save_results] raises a database
    error, whatever the environment, and the committed tables stay as
    they were. *)
Theorem save_results_rejects_duplicate_keys (E : env) (res : results) (w : world) :
  connected w ->
  ~ NoDup (map ti_item_id (top_items res)) \/
  ~ NoDup (map daily_key (daily_revenue res)) ->
  exists msg w',
    save_results E res w = (Raised (PgError msg), w') /\
    committed w' = committed w /\ pending w' = committed w.
Proof.
  intros Hc Hdup.
  destruct (save_results_cases E res Hc) as (w1 & [Hbad|Hok]).
  - destruct Hbad as (msg & e0 & tail & Hr & _ & Hcom & Hpen & _ & _ & Hend).
    destruct (rollback_fault E); destruct Hend as [-> _]; eauto.
  - destruct Hok as (_ & _ & _ & _ & Happly & _). exfalso.
    assert (Hacc : keys_unique res).
    { apply (apply_statements_of_ok res (pending w)). eauto. }
    destruct Hacc as [Hd Ht]. tauto.
Qed.

Lemma save_results_rejects_duplicate_keys_witness :
  let res := transformed stable_sort_desc renamed_item_data in
  let w := connected_world renamed_item_data yesterdays_tables in
  connected w /\
  (~ NoDup (map ti_item_id (top_items res)) \/
   ~ NoDup (map daily_key (daily_revenue res))) /\
  exists msg w',
    save_results no_faults res w = (Raised (PgError msg), w') /\
    committed w' = committed w /\ pending w' = committed w.
Proof.
  intros res w.
  assert (Hc : connected w) by (split; reflexivity).
  assert (Hdup : ~ NoDup (map ti_item_id (top_items res)) \/
                 ~ NoDup (map daily_key (daily_revenue res))).
  { left. intros Hnd. vm_compute in Hnd.
    inversion Hnd as [|? ? Hin _]; subst. apply Hin. simpl. auto. }
  split; [exact Hc|]. split; [exact Hdup|].
  exact (@save_results_rejects_duplicate_keys no_faults res w Hc Hdup).
Defined.

(* ================================================================== *)
(** * What each stage does to the world                                 *)
(* ================================================================== *)

(** The ways [connect] can end, and what each leaves behind. *)
Lemma connect_effect (E : env) (w : world) :
  exists r w',
    connect E w = (r, w') /\
    source w' = source w /\ committed w' = committed w /\
    pending w' = pending w /\ stmt_no w' = stmt_no w /\
    match connect_fault E, cursor_fault E with
    | None, None =>
        r = Returned tt /\ connected w' /\
        trace w' = Log INFO MsgConnected :: Log INFO MsgConnecting ::
                   Call Mconnect :: trace w
    | Some e, _ =>
        r = Raised e /\ conn w' = conn w /\ cur w' = cur w /\
        trace w' = (if is_Error e then [Log ERROR (MsgConnectError e)] else [])
                   ++ Log INFO MsgConnecting :: Call Mconnect :: trace w
    | None, Some e =>
        r = Raised e /\ conn w' = Some Connection /\ cur w' = cur w /\
        trace w' = (if is_Error e then [Log ERROR (MsgConnectError e)] else [])
                   ++ Log INFO MsgConnecting :: Call Mconnect :: trace w
    end.
Proof.
  unfold connect, try_except, bind, emit, log, emit, may_fail, raise, ret.
  destruct (connect_fault E) as [e1|]; simpl.
  - destruct (is_Error e1); simpl; eexists; eexists;
      (split; [reflexivity|]); simpl; repeat split.
  - destruct (cursor_fault E) as [e2|]; simpl.
    + destruct (is_Error e2); simpl; eexists; eexists;
        (split; [reflexivity|]); simpl; repeat split.
    + eexists. eexists. split; [reflexivity|]. simpl. repeat split.
Qed.

(** X3. [connect] has three ways to end. With no fault it returns with
    session and cursor set. A fault on opening the session is raised
    with both fields as they were; a fault on opening the cursor is
    raised with the session set and the cursor as it was. The exception
    raised is the fault itself, logged as an error exactly when it is a
    [psycopg2.Error]. The tables are not touched. *)
Theorem connect_outcomes (E : env) (w : world) :
  exists r w',
    connect E w = (r, w') /\
    source w' = source w /\ committed w' = committed w /\
    pending w' = pending w /\ stmt_no w' = stmt_no w /\
    match connect_fault E, cursor_fault E with
    | None, None =>
        r = Returned tt /\ connected w' /\
        trace w' = Log INFO MsgConnected :: Log INFO MsgConnecting ::
                   Call Mconnect :: trace w
    | Some e, _ =>
        r = Raised e /\ conn w' = conn w /\ cur w' = cur w /\
        trace w' = (if is_Error e then [Log ERROR (MsgConnectError e)] else [])
                   ++ Log INFO MsgConnecting :: Call Mconnect :: trace w
    | None, Some e =>
        r = Raised e /\ conn w' = Some Connection /\ cur w' = cur w /\
        trace w' = (if is_Error e then [Log ERROR (MsgConnectError e)] else [])
                   ++ Log INFO MsgConnecting :: Call Mconnect :: trace w
    end.
Proof.
  unfold connect, try_except, bind, emit, log, emit, may_fail, raise, ret.
  destruct (connect_fault E) as [e1|]; simpl.
  - destruct (is_Error e1); simpl; eexists; eexists;
      (split; [reflexivity|]); simpl; repeat split.
  - destruct (cursor_fault E) as [e2|]; simpl.
    + destruct (is_Error e2); simpl; eexists; eexists;
        (split; [reflexivity|]); simpl; repeat split.
    + eexists. eexists. split; [reflexivity|]. simpl. repeat split.
Qed.

(** The ways [load_data] can end on an open session. *)
Lemma load_data_effect (E : env) (w : world) :
  conn w <> None ->
  exists r t,
    load_data E w = (r, set_trace (t ++ Call Mload_data :: trace w) w) /\
    match read_fault E 0, read_fault E 1, read_fault E 2 with
    | None, None, None => r = Returned (loaded (source w)) /\ t = [Log INFO MsgLoaded]
    | Some e, _, _ | None, Some e, _ | None, None, Some e =>
        r = Raised e /\
        t = if is_Error e then [Log ERROR (MsgLoadError e)] else []
    end.
Proof.
  intros Hconn. unfold load_data, try_except, bind, emit, read_sql, log, emit,
    raise, ret, loaded.
  destruct w as [src com pen [c|] k n t]; [|contradiction Hconn; reflexivity].
  simpl.
  destruct (read_fault E 0) as [e0|]; simpl.
  { exists (Raised e0), (if is_Error e0 then [Log ERROR (MsgLoadError e0)] else []).
    destruct (is_Error e0); simpl; repeat split. }
  destruct (read_fault E 1) as [e1|]; simpl.
  { exists (Raised e1), (if is_Error e1 then [Log ERROR (MsgLoadError e1)] else []).
    destruct (is_Error e1); simpl; repeat split. }
  destruct (read_fault E 2) as [e2|]; simpl.
  { exists (Raised e2), (if is_Error e2 then [Log ERROR (MsgLoadError e2)] else []).
    destruct (is_Error e2); simpl; repeat split. }
  exists (Returned (mkDataset (orders src) (order_items src) (menu_items src))),
    [Log INFO MsgLoaded].
  simpl. repeat split.
Qed.

(** X4. [load_data] gives all or nothing. On an open session it returns
    the three source tables whole when none of the three reads fails,
    and otherwise raises the fault of the first read that fails, without
    a partial result; that fault is logged as an error exactly when it
    is a [psycopg2.Error]. Either way it changes nothing but the log. *)
Theorem load_data_all_or_nothing (E : env) (w : world) :
  conn w <> None ->
  exists r t,
    load_data E w = (r, set_trace (t ++ Call Mload_data :: trace w) w) /\
    match read_fault E 0, read_fault E 1, read_fault E 2 with
    | None, None, None => r = Returned (loaded (source w)) /\ t = [Log INFO MsgLoaded]
    | Some e, _, _ | None, Some e, _ | None, None, Some e =>
        r = Raised e /\
        t = if is_Error e then [Log ERROR (MsgLoadError e)] else []
    end.
Proof.
  intros Hconn. unfold load_data, try_except, bind, emit, read_sql, log, emit,
    raise, ret, loaded.
  destruct w as [src com pen [c|] k n t]; [|contradiction Hconn; reflexivity].
  simpl.
  destruct (read_fault E 0) as [e0|]; simpl.
  { exists (Raised e0), (if is_Error e0 then [Log ERROR (MsgLoadError e0)] else []).
    destruct (is_Error e0); simpl; repeat split. }
  destruct (read_fault E 1) as [e1|]; simpl.
  { exists (Raised e1), (if is_Error e1 then [Log ERROR (MsgLoadError e1)] else []).
    destruct (is_Error e1); simpl; repeat split. }
  destruct (read_fault E 2) as [e2|]; simpl.
  { exists (Raised e2), (if is_Error e2 then [Log ERROR (MsgLoadError e2)] else []).
    destruct (is_Error e2); simpl; repeat split. }
  exists (Returned (mkDataset (orders src) (order_items src) (menu_items src))),
    [Log INFO MsgLoaded].
  simpl. repeat split.
Qed.

Lemma load_data_all_or_nothing_witness :
  let w := connected_world sample_data empty_tables in
  conn w <> None /\
  exists r t,
    load_data no_faults w = (r, set_trace (t ++ Call Mload_data :: trace w) w) /\
    match read_fault no_faults 0, read_fault no_faults 1, read_fault no_faults 2 with
    | None, None, None => r = Returned (loaded (source w)) /\ t = [Log INFO MsgLoaded]
    | Some e, _, _ | None, Some e, _ | None, None, Some e =>
        r = Raised e /\
        t = if is_Error e then [Log ERROR (MsgLoadError e)] else []
    end.
Proof.
  intros w.
  assert (Hconn : conn w <> None) by discriminate.
  split; [exact Hconn|].
  exact (@load_data_all_or_nothing no_faults w Hconn).
Defined.

Lemma perform_transformations_effect sort_values (E : env) (data : dataset)
    (w : world) :
  exists r t,
    perform_transformations sort_values E data w = (r, set_trace t w) /\
    (r = Returned (transformed sort_values data) \/ exists e, r = Raised e).
Proof.
  destruct (pandas_fault E) as [e|] eqn:HE.
  - unfold perform_transformations, try_except, bind, emit, may_fail, raise, log,
      emit. rewrite HE. simpl.
    destruct (is_Exception e); simpl.
    + exists (Raised e),
        (Log ERROR (MsgTransformError e) :: Call Mperform_transformations :: trace w).
      split; [reflexivity|eauto].
    + exists (Raised e), (Call Mperform_transformations :: trace w).
      split; [reflexivity|eauto].
  - rewrite perform_transformations_run by exact HE. eauto.
Qed.

Lemma print_results_effect (E : env) (res : results) (w : world) :
  exists r t, print_results E res w = (r, set_trace t w).
Proof.
  unfold print_results, bind, emit, may_fail, raise, ret.
  destruct (print_fault E); simpl.
  - exists (Raised e), (Call Mprint_results :: trace w). reflexivity.
  - exists (Returned tt),
      (PrintTopItems (top_items res) :: PrintDailyRevenue (daily_revenue res) ::
       Call Mprint_results :: trace w).
    reflexivity.
Qed.

Lemma close_effect (w : world) :
  source (snd (close w)) = source w /\ committed (snd (close w)) = committed w.
Proof.
  unfold close, bind, emit, cur_close, conn_close, log, emit, ret.
  destruct w as [src com pen [c|] [k|] n t]; simpl; split; reflexivity.
Qed.

Lemma keeps_source_bind {A B} (m : M A) (k : A -> M B) :
  keeps_source m -> (forall a, keeps_source (k a)) -> keeps_source (bind m k).
Proof.
  intros Hm Hk w. unfold bind. specialize (Hm w).
  destruct (m w) as [[a|e] w1]; simpl in *; [|exact Hm].
  rewrite Hk. exact Hm.
Qed.

Lemma keeps_source_try_except {A} (catches : exn -> bool) (body : M A)
    (handler : exn -> M A) :
  keeps_source body -> (forall e, keeps_source (handler e)) ->
  keeps_source (try_except catches body handler).
Proof.
  intros Hb Hh w. unfold try_except. specialize (Hb w).
  destruct (body w) as [[a|e] w1]; simpl in *; [exact Hb|].
  destruct (catches e); [|exact Hb]. rewrite Hh. exact Hb.
Qed.

Lemma keeps_source_for_each {A} (l : list A) (f : A -> M unit) :
  (forall x, keeps_source (f x)) -> keeps_source (for_each l f).
Proof.
  intros Hf. induction l as [|x t IH]; simpl.
  - intros w. reflexivity.
  - apply keeps_source_bind; auto.
Qed.

Lemma keeps_source_execute (E : env) (st : statement) : keeps_source (execute E st).
Proof.
  intros w. unfold execute. destruct (cur w); [|reflexivity].
  destruct (db_fault E (stmt_no w)); [reflexivity|].
  destruct (exec_statement st (pending w)); reflexivity.
Qed.

Lemma keeps_source_commit (E : env) : keeps_source (commit E).
Proof.
  intros w. unfold commit. destruct (conn w); [|reflexivity].
  destruct (db_fault E (stmt_no w)); reflexivity.
Qed.

Lemma keeps_source_rollback (E : env) : keeps_source (rollback E).
Proof.
  intros w. unfold rollback. destruct (conn w); [|reflexivity].
  destruct (rollback_fault E); reflexivity.
Qed.

Lemma keeps_source_save_results (E : env) (res : results) :
  keeps_source (save_results E res).
Proof.
  unfold save_results.
  repeat first
    [ apply keeps_source_bind; [|intros ?]
    | apply keeps_source_try_except; [|intros ?]
    | apply keeps_source_for_each; intros ?
    | apply keeps_source_execute
    | apply keeps_source_commit
    | apply keeps_source_rollback
    | (intros ?; reflexivity) ].
Qed.

(** What [save_results] does to the tables on a connected session. *)
Lemma save_results_effect (E : env) (res : results) (w : world) :
  connected w ->
  exists r w',
    save_results E res w = (r, w') /\
    source w' = source w /\ connected w' /\
    ((exists e, r = Raised e) /\ committed w' = committed w \/
     r = Returned tt /\
     committed w' = mkTables (Some (daily_revenue res)) (Some (top_items res))).
Proof.
  intros Hc.
  pose proof (keeps_source_save_results E res w) as Hsrc.
  destruct (save_results_cases E res Hc) as (w1 & [Hbad|Hok]).
  - destruct Hbad as (msg & e0 & tail & Hr & _ & Hcom & _ & Hconn & Hcur & _).
    rewrite Hr in Hsrc. simpl in Hsrc.
    eexists. eexists. split; [exact Hr|]. split; [exact Hsrc|]. split.
    + destruct Hc. split; congruence.
    + left. eauto.
  - destruct Hok as (Hr & Hcp & Hconn & Hcur & Happly & _).
    rewrite Hr in Hsrc. simpl in Hsrc.
    eexists. eexists. split; [exact Hr|]. split; [exact Hsrc|]. split.
    + destruct Hc. split; congruence.
    + right. split; [reflexivity|]. now apply apply_statements_of in Happly.
Qed.

(** The five stages in sequence, as in the [try] of [main]. *)
Lemma pipeline_effect sort_values (E : env) (w : world) :
  exists r w',
    (connect E ;;
     data <- load_data E ;;
     res <- perform_transformations sort_values E data ;;
     save_results E res ;;
     print_results E res) w = (r, w') /\
    source w' = source w /\
    ((exists e, r = Raised e) /\ committed w' = committed w \/
     committed w' = aggregates_of sort_values (source w)).
Proof.
  destruct (connect_effect E w)
    as (r1 & w1 & Hrun1 & Hsrc1 & Hcom1 & _ & _ & Hcase1).
  unfold bind at 1. rewrite Hrun1.
  assert (Hr1 : (r1 = Returned tt /\ connected w1) \/ exists e, r1 = Raised e).
  { destruct (connect_fault E), (cursor_fault E);
      try solve [right; destruct Hcase1 as [-> _]; eauto].
    left. tauto. }
  destruct Hr1 as [[-> Hc1]|[e ->]];
    [|eexists; eexists; split; [reflexivity|]; split; [assumption|left; eauto]].
  assert (Hconn1 : conn w1 <> None) by (destruct Hc1 as [-> _]; discriminate).
  destruct (@load_data_effect E w1 Hconn1) as (r2 & t2 & Hrun2 & Hcase2).
  unfold bind at 1. rewrite Hrun2.
  set (w2 := set_trace (t2 ++ Call Mload_data :: trace w1) w1).
  assert (Hr2 : r2 = Returned (loaded (source w1)) \/ exists e, r2 = Raised e).
  { destruct (read_fault E 0), (read_fault E 1), (read_fault E 2);
      try solve [right; destruct Hcase2 as [-> _]; eauto].
    left. tauto. }
  destruct Hr2 as [->|[e ->]];
    [|eexists; eexists; split; [reflexivity|]; split; [assumption|left; eauto]].
  destruct (perform_transformations_effect sort_values E (loaded (source w1)) w2)
    as (r3 & t3 & Hrun3 & Hr3).
  unfold bind at 1. rewrite Hrun3.
  set (w3 := set_trace t3 w2).
  destruct Hr3 as [->|[e ->]];
    [|eexists; eexists; split; [reflexivity|]; split; [assumption|left; eauto]].
  assert (Hc3 : connected w3) by exact Hc1.
  destruct (save_results_effect E (transformed sort_values (loaded (source w1))) Hc3)
    as (r4 & w4 & Hrun4 & Hsrc4 & Hc4 & Hcase4).
  unfold bind at 1. rewrite Hrun4.
  destruct Hcase4 as [[[e ->] Hcom4]|[-> Hcom4]].
  - eexists. eexists. split; [reflexivity|]. split; [|left; split; [eauto|]].
    + rewrite Hsrc4. exact Hsrc1.
    + rewrite Hcom4. exact Hcom1.
  - destruct (print_results_effect E (transformed sort_values (loaded (source w1))) w4)
      as (r5 & t5 & Hrun5).
    rewrite Hrun5. eexists. eexists. split; [reflexivity|]. simpl.
    split; [rewrite Hsrc4; exact Hsrc1|]. right.
    rewrite Hcom4, Hsrc1. reflexivity.
Qed.

Lemma close_returns (w : world) : exists w', close w = (Returned tt, w').
Proof.
  unfold close, bind, emit, cur_close, conn_close, log, emit, ret.
  destruct w as [src com pen [c|] [k|] n t]; simpl; eauto.
Qed.

(** [close] in a [finally] never replaces the outcome of the body. *)
Lemma try_finally_close {A} (body : M A) (w : world) :
  try_finally body close w = (fst (body w), snd (close (snd (body w)))).
Proof.
  unfold try_finally. destruct (body w) as [r w1]. simpl.
  destruct (close_returns w1) as [w2 ->]. reflexivity.
Qed.

Lemma main_unfold sort_values (E : env) (w : world) :
  main sort_values E w =
  try_finally
    (try_except is_Exception
       (connect E ;;
        data <- load_data E ;;
        res <- perform_transformations sort_values E data ;;
        save_results E res ;;
        print_results E res)
       (fun e => log ERROR (MsgPipelineFailed e) ;; raise e))
    close (set_cur None (set_conn None w)).
Proof. reflexivity. Qed.

(** The [try] of [main] with its [except] clause. *)
Lemma guarded_pipeline_effect sort_values (E : env) (w : world) :
  exists r w',
    try_except is_Exception
      (connect E ;;
       data <- load_data E ;;
       res <- perform_transformations sort_values E data ;;
       save_results E res ;;
       print_results E res)
      (fun e => log ERROR (MsgPipelineFailed e) ;; raise e) w = (r, w') /\
    source w' = source w /\
    ((exists e, r = Raised e) /\ committed w' = committed w \/
     committed w' = aggregates_of sort_values (source w)).
Proof.
  destruct (pipeline_effect sort_values E w) as (r & w1 & Hrun & Hsrc & Hcase).
  unfold try_except. rewrite Hrun. destruct r as [[]|e].
  - eauto.
  - destruct (is_Exception e); [|eauto].
    unfold bind, log, emit, raise. simpl.
    eexists. eexists. split; [reflexivity|]. simpl. split; [exact Hsrc|].
    destruct Hcase as [[_ Hc]|Hc]; [left; eauto|right; exact Hc].
Qed.

(** X5. A run of [main] never leaves the target tables half written and
    never writes to the source tables: whatever the environment does,
    the committed tables afterwards are either what they were or exactly
    the two aggregates of the source data, and they are the aggregates
    whenever [main] returns. *)
Theorem main_all_or_nothing
    (sort_values : list top_item_row -> list top_item_row) (E : env) (w : world) :
  let out := main sort_values E w in
  source (snd out) = source w /\
  (committed (snd out) = committed w \/
   committed (snd out) = aggregates_of sort_values (source w)) /\
  (fst out = Returned tt ->
   committed (snd out) = aggregates_of sort_values (source w)).
Proof.
  cbv zeta. rewrite main_unfold, try_finally_close.
  destruct (guarded_pipeline_effect sort_values E (set_cur None (set_conn None w)))
    as (r & w1 & Hrun & Hsrc & Hcase).
  rewrite Hrun. simpl fst. simpl snd.
  destruct (close_effect w1) as [Hcs Hcc]. rewrite Hcs, Hcc.
  split; [exact Hsrc|]. split.
  - destruct Hcase as [[_ Hc]|Hc]; [left|right]; exact Hc.
  - intros ->. destruct Hcase as [[[e He] _]|Hc]; [discriminate|exact Hc].
Qed.

(** A failure of the printing comes after the commit: [main] raises and
    the new rows are in the tables. *)
Example main_print_fails_after_commit :
  let E := mkEnv None None (fun _ => None) None (fun _ => None) None
                 (Some (PyException "BrokenPipeError")) in
  let out := main stable_sort_desc E (initial_world sample_data yesterdays_tables) in
  fst out = Raised (PyException "BrokenPipeError") /\
  committed (snd out) = aggregates_of stable_sort_desc sample_data.
Proof. vm_compute. auto. Qed.

(* ================================================================== *)
(** * How a run of the driver ends                                      *)
(* ================================================================== *)

Lemma raised_bind {A B} (m : M A) (k : A -> M B) (w w' : world) (e : exn) :
  m w = (Raised e, w') -> bind m k w = (Raised e, w').
Proof. intros Hm. unfold bind. now rewrite Hm. Qed.

Lemma returned_bind {A B} (m : M A) (k : A -> M B) (w w' : world) (a : A) :
  m w = (Returned a, w') -> bind m k w = k a w'.
Proof. intros Hm. unfold bind. now rewrite Hm. Qed.

(** The stages before the save: they stop at the first fault, and
    otherwise hand the aggregates of the source tables to the save on a
    connected session, with the tables untouched. *)
Lemma pipeline_until_save sort_values (E : env) (w : world) :
  match failure_before_save E with
  | Some e =>
      exists w',
        (connect E ;;
         data <- load_data E ;;
         res <- perform_transformations sort_values E data ;;
         save_results E res ;;
         print_results E res) w = (Raised e, w') /\
        committed w' = committed w /\
        (forall ev, In ev (trace w') -> In ev (trace w) \/
                    ev <> Call Msave_results /\ ev <> Call Mprint_results)
  | None =>
      exists w3,
        connected w3 /\ source w3 = source w /\ committed w3 = committed w /\
        pending w3 = pending w /\ stmt_no w3 = stmt_no w /\
        (connect E ;;
         data <- load_data E ;;
         res <- perform_transformations sort_values E data ;;
         save_results E res ;;
         print_results E res) w =
        (save_results E (transformed sort_values (source w)) ;;
         print_results E (transformed sort_values (source w))) w3
  end.
Proof.
  destruct (connect_effect E w)
    as (r1 & w1 & Hrun1 & Hsrc1 & Hcom1 & Hpen1 & Hno1 & Hcase1).
  unfold failure_before_save.
  destruct (connect_fault E) as [e|].
  { destruct Hcase1 as (-> & _ & _ & Htr). exists w1.
    split; [now apply raised_bind|]. split; [exact Hcom1|].
    intros ev Hev. rewrite Htr in Hev. apply in_app_or in Hev.
    destruct Hev as [Hev|[<-|[<-|Hev]]]; try (right; split; discriminate);
      [|now left].
    destruct (is_Error e); [destruct Hev as [<-|[]]|destruct Hev].
    right; split; discriminate. }
  destruct (cursor_fault E) as [e|].
  { destruct Hcase1 as (-> & _ & _ & Htr). exists w1.
    split; [now apply raised_bind|]. split; [exact Hcom1|].
    intros ev Hev. rewrite Htr in Hev. apply in_app_or in Hev.
    destruct Hev as [Hev|[<-|[<-|Hev]]]; try (right; split; discriminate);
      [|now left].
    destruct (is_Error e); [destruct Hev as [<-|[]]|destruct Hev].
    right; split; discriminate. }
  destruct Hcase1 as (-> & Hc1 & Htr1).
  rewrite (@returned_bind _ _ _ _ _ _ _ Hrun1).
  assert (Hconn1 : conn w1 <> None) by (destruct Hc1 as [-> _]; discriminate).
  destruct (@load_data_effect E w1 Hconn1) as (r2 & t2 & Hrun2 & Hcase2).
  assert (Hold : forall ev, In ev (Call Mload_data :: trace w1) ->
                   In ev (trace w) \/
                   ev <> Call Msave_results /\ ev <> Call Mprint_results).
  { intros ev Hev. rewrite Htr1 in Hev.
    destruct Hev as [<-|[<-|[<-|[<-|Hev]]]]; try (right; split; discriminate).
    now left. }
  assert (Hfail2 : forall e,
            r2 = Raised e ->
            t2 = (if is_Error e then [Log ERROR (MsgLoadError e)] else []) ->
            exists w',
              (data <- load_data E ;;
               res <- perform_transformations sort_values E data ;;
               save_results E res ;; print_results E res) w1 = (Raised e, w') /\
              committed w' = committed w /\
              (forall ev, In ev (trace w') -> In ev (trace w) \/
                 ev <> Call Msave_results /\ ev <> Call Mprint_results)).
  { intros e -> ->. eexists. split; [apply raised_bind; exact Hrun2|].
    split; [exact Hcom1|]. simpl. intros ev Hev. apply in_app_or in Hev.
    destruct Hev as [Hev|Hev]; [|now apply Hold].
    destruct (is_Error e); [destruct Hev as [<-|[]]|destruct Hev].
    right; split; discriminate. }
  destruct (read_fault E 0) as [e|];
    [destruct Hcase2; now apply Hfail2|].
  destruct (read_fault E 1) as [e|];
    [destruct Hcase2; now apply Hfail2|].
  destruct (read_fault E 2) as [e|];
    [destruct Hcase2; now apply Hfail2|].
  clear Hfail2. destruct Hcase2 as [-> ->].
  rewrite (@returned_bind _ _ _ _ _ _ _ Hrun2).
  set (w2 := set_trace ([Log INFO MsgLoaded] ++ Call Mload_data :: trace w1) w1).
  destruct (pandas_fault E) as [e|] eqn:HE.
  - unfold bind at 1.
    unfold perform_transformations, try_except, bind at 1, emit.
    unfold bind at 1, may_fail. rewrite HE. cbn [raise].
    destruct (is_Exception e); unfold bind, log, emit, raise; simpl;
      eexists; (split; [reflexivity|]); simpl; (split; [exact Hcom1|]);
      intros ev Hev.
    + destruct Hev as [<-|[<-|[<-|Hev]]]; try (right; split; discriminate).
      now apply Hold.
    + destruct Hev as [<-|[<-|Hev]]; try (right; split; discriminate).
      now apply Hold.
  - rewrite (@returned_bind _ _ _ _ _ _ _
               (@perform_transformations_run sort_values E _ _ HE)).
    rewrite Hsrc1.
    change (transformed sort_values (loaded (source w)))
      with (transformed sort_values (source w)).
    eexists. split; [|split; [|split; [|split; [|split; [|reflexivity]]]]];
      simpl; assumption.
Qed.

Lemma print_results_cases (E : env) (res : results) (w : world) :
  match print_fault E with
  | Some e =>
      print_results E res w =
      (Raised e, set_trace (Call Mprint_results :: trace w) w)
  | None =>
      print_results E res w =
      (Returned tt,
       set_trace (PrintTopItems (top_items res) ::
                  PrintDailyRevenue (daily_revenue res) ::
                  Call Mprint_results :: trace w) w)
  end.
Proof.
  unfold print_results, bind, emit, may_fail, raise, ret.
  destruct (print_fault E); reflexivity.
Qed.

(** The save followed by the printing, on a connected session. *)
Lemma save_and_print (E : env) (res : results) (w3 : world) :
  connected w3 ->
  ((exists w5, (save_results E res ;; print_results E res) w3 = (Returned tt, w5)) <->
   no_fault_during_save E (stmt_no w3) res /\ keys_unique res /\
   print_fault E = None) /\
  (forall w5,
     (save_results E res ;; print_results E res) w3 = (Returned tt, w5) ->
     connected w5 /\
     committed w5 = mkTables (Some (daily_revenue res)) (Some (top_items res)) /\
     exists w4,
       trace w5 = PrintTopItems (top_items res) ::
                  PrintDailyRevenue (daily_revenue res) ::
                  Call Mprint_results :: trace w4).
Proof.
  intros Hc3.
  destruct (save_results_cases E res Hc3) as (w4 & [Hbad|Hok]).
  - destruct Hbad as (msg & e0 & tail & Hr & _).
    rewrite (@raised_bind _ _ _ _ _ _ _ Hr). split.
    + split; [intros [w5 H]; discriminate|].
      intros (Hnf & Hacc & _).
      destruct (save_results_returns Hc3 Hnf Hacc) as [w' Hret].
      rewrite Hret in Hr. discriminate.
    + intros w5 H. discriminate.
  - destruct Hok as (Hr & Hcp & Hconn & Hcur & Happly & Hnf & _).
    rewrite (@returned_bind _ _ _ _ _ _ _ Hr).
    pose proof (print_results_cases E res w4) as Hprint.
    assert (Hacc : keys_unique res).
    { apply (apply_statements_of_ok res (pending w3)). eauto. }
    apply apply_statements_of in Happly.
    assert (Hc4 : connected w4) by (destruct Hc3; split; congruence).
    destruct (print_fault E) as [e|]; rewrite Hprint; split.
    + split; [intros [w5 H]; discriminate|intros (_ & _ & H); discriminate].
    + intros w5 H. discriminate.
    + split; [intros _|eauto].
      split; [exact Hnf|]. split; [exact Hacc|reflexivity].
    + intros w5 H. inversion H; subst w5. simpl.
      split; [exact Hc4|]. split; [exact Happly|]. eauto.
Qed.

Lemma close_connected (w : world) :
  connected w ->
  close w =
  (Returned tt,
   set_trace (Log INFO MsgClosed :: SessionClosed :: CursorClosed ::
              Call Mclose :: trace w)
             (set_pending (committed w) w)).
Proof.
  intros [Hconn Hcur]. unfold close, bind, emit, cur_close, conn_close, log, emit.
  destruct w as [src com pen c k n t]. simpl in *. subst. reflexivity.
Qed.

(** X6. A fault before the save (on the session, the cursor, a read, or
    in the library) ends the run there: [main] raises that very
    exception, calls neither [save_results] nor [print_results], leaves
    the committed tables as they were, and has logged the failure of the
    pipeline when the exception is an [Exception]. *)
Theorem main_stops_at_first_fault
    (sort_values : list top_item_row -> list top_item_row) (E : env)
    (w : world) (e : exn) :
  failure_before_save E = Some e ->
  exists w',
    main sort_values E w = (Raised e, w') /\
    committed w' = committed w /\
    (forall ev, In ev (trace w') ->
       In ev (trace w) \/ ev <> Call Msave_results /\ ev <> Call Mprint_results) /\
    (is_Exception e = true -> In (Log ERROR (MsgPipelineFailed e)) (trace w')).
Proof.
  intros Hfail. rewrite main_unfold, try_finally_close.
  set (w0 := set_cur None (set_conn None w)).
  pose proof (pipeline_until_save sort_values E w0) as Hpipe.
  rewrite Hfail in Hpipe. destruct Hpipe as (w1 & Hrun & Hcom & Htr).
  unfold try_except. rewrite Hrun.
  assert (Hend : forall w2,
            committed w2 = committed w ->
            (forall ev, In ev (trace w2) ->
               In ev (trace w) \/
               ev <> Call Msave_results /\ ev <> Call Mprint_results) ->
            committed (snd (close w2)) = committed w /\
            (forall ev, In ev (trace (snd (close w2))) ->
               In ev (trace w) \/
               ev <> Call Msave_results /\ ev <> Call Mprint_results)).
  { intros w2 Hc2 Ht2. destruct (close_effect w2) as [_ Hcc].
    split; [congruence|].
    destruct (close_trace w2) as (after & Hafter & Hcalls).
    intros ev Hev. rewrite Hafter in Hev. apply in_app_or in Hev.
    destruct Hev as [Hev|[<-|Hev]].
    - right. split; intros ->; exact (Hcalls _ Hev).
    - right. split; discriminate.
    - now apply Ht2. }
  destruct (is_Exception e) eqn:Hexc.
  - unfold bind, log, emit, raise. simpl fst. simpl snd.
    set (w2 := set_trace (Log ERROR (MsgPipelineFailed e) :: trace w1) w1).
    destruct (Hend w2) as [Hc Ht].
    + exact Hcom.
    + intros ev [<-|Hev]; [right; split; discriminate|now apply Htr].
    + eexists. split; [reflexivity|]. split; [exact Hc|]. split; [exact Ht|].
      intros _. destruct (close_trace w2) as (after & Hafter & _).
      rewrite Hafter. apply in_or_app. right. simpl. auto.
  - simpl fst. simpl snd. destruct (Hend w1 Hcom Htr) as [Hc Ht].
    eexists. split; [reflexivity|]. split; [exact Hc|]. split; [exact Ht|].
    discriminate.
Qed.

Lemma main_stops_at_first_fault_witness :
  let w := initial_world sample_data yesterdays_tables in
  let e := PgError "cursor refused" in
  failure_before_save no_cursor = Some e /\
  exists w',
    main stable_sort_desc no_cursor w = (Raised e, w') /\
    committed w' = committed w /\
    (forall ev, In ev (trace w') ->
       In ev (trace w) \/ ev <> Call Msave_results /\ ev <> Call Mprint_results) /\
    (is_Exception e = true -> In (Log ERROR (MsgPipelineFailed e)) (trace w')).
Proof.
  intros w e.
  assert (Hf : failure_before_save no_cursor = Some e) by reflexivity.
  split; [exact Hf|].
  exact (@main_stops_at_first_fault stable_sort_desc no_cursor w e Hf).
Defined.

Lemma guarded_outcome {A} (body : M A) (w : world) :
  fst (try_except is_Exception body
         (fun e => log ERROR (MsgPipelineFailed e) ;; raise e) w) =
  fst (body w).
Proof.
  unfold try_except. destruct (body w) as [[a|e] w1]; [reflexivity|].
  destruct (is_Exception e); reflexivity.
Qed.

Lemma guarded_returned {A} (body : M A) (w w1 : world) (a : A) :
  body w = (Returned a, w1) ->
  try_except is_Exception body
    (fun e => log ERROR (MsgPipelineFailed e) ;; raise e) w = (Returned a, w1).
Proof. intros Hb. unfold try_except. now rewrite Hb. Qed.

(** X7. [main] returns exactly when nothing fails before the save, no
    step of the save meets a fault of the environment, no primary key
    occurs twice in the aggregates of the source tables, and the
    printing does not fail. It has then left nothing pending and printed
    the two aggregates. *)
Theorem main_returns_iff
    (sort_values : list top_item_row -> list top_item_row) (E : env) (w : world) :
  let res := transformed sort_values (source w) in
  ((exists w', main sort_values E w = (Returned tt, w')) <->
   failure_before_save E = None /\
   no_fault_during_save E (stmt_no w) res /\
   keys_unique res /\
   print_fault E = None) /\
  (forall w', main sort_values E w = (Returned tt, w') ->
     pending w' = committed w' /\
     In (PrintDailyRevenue (daily_revenue res)) (trace w') /\
     In (PrintTopItems (top_items res)) (trace w')).
Proof.
  intros res. rewrite main_unfold, try_finally_close.
  set (w0 := set_cur None (set_conn None w)).
  set (pipeline := (connect E ;; data <- load_data E ;;
                    res0 <- perform_transformations sort_values E data ;;
                    save_results E res0 ;; print_results E res0)).
  pose proof (pipeline_until_save sort_values E w0) as Hpipe.
  fold pipeline in Hpipe.
  pose proof (guarded_outcome pipeline w0) as Hfst.
  assert (Hraised : forall e w1 w',
            pipeline w0 = (Raised e, w1) ->
            (fst (try_except is_Exception pipeline
                    (fun e => log ERROR (MsgPipelineFailed e) ;; raise e) w0),
             snd (close (snd (try_except is_Exception pipeline
                    (fun e => log ERROR (MsgPipelineFailed e) ;; raise e) w0))))
            <> (Returned tt, w')).
  { intros e w1 w' Hrun H. apply (f_equal fst) in H. simpl in H.
    rewrite Hfst, Hrun in H. discriminate. }
  destruct (failure_before_save E) as [e|].
  - destruct Hpipe as (w1 & Hrun & _). split.
    + split; [intros [w' H]; exfalso; exact (Hraised _ _ _ Hrun H)|].
      intros (H & _). discriminate.
    + intros w' H. exfalso. exact (Hraised _ _ _ Hrun H).
  - destruct Hpipe as (w3 & Hc3 & Hsrc3 & Hcom3 & Hpen3 & Hno3 & Hrun).
    change (transformed sort_values (source w0)) with res in Hrun.
    destruct (save_and_print E res Hc3) as [Hiff Hthen].
    rewrite Hno3 in Hiff. change (stmt_no w0) with (stmt_no w) in Hiff.
    destruct ((save_results E res ;; print_results E res) w3)
      as [[[]|e] w5] eqn:Hsp.
    + rewrite (@guarded_returned _ pipeline w0 w5 tt Hrun). simpl fst. simpl snd.
      destruct (Hthen w5 eq_refl) as (Hc5 & Hcom5 & w4 & Htr5).
      rewrite (close_connected Hc5). simpl snd. split.
      * split; [intros _|eauto].
        split; [reflexivity|]. apply Hiff. eauto.
      * intros w' H. inversion H; subst w'. simpl.
        split; [reflexivity|].
        rewrite Htr5. simpl. tauto.
    + split.
      * split; [intros [w' H]; exfalso; exact (Hraised _ _ _ Hrun H)|].
        intros (_ & H). apply Hiff in H. destruct H as [w5' H]. discriminate.
      * intros w' H. exfalso. exact (Hraised _ _ _ Hrun H).
Qed.

Lemma main_runs_on_sample_data :
  exists w',
    main stable_sort_desc no_faults (initial_world sample_data yesterdays_tables) =
    (Returned tt, w') /\
    committed w' = aggregates_of stable_sort_desc sample_data /\
    pending w' = committed w'.
Proof. eexists. split; [vm_compute; reflexivity|]. vm_compute. auto. Qed.

(* ================================================================== *)
(** * More on the aggregates                                            *)
(* ================================================================== *)

(** X8. With ten groups or fewer nothing is cut: [top_items] holds the
    row of every (item_id, item_name) pair that a joined row carries,
    and only those. *)
Theorem top_items_keeps_all_when_few
    (sort_values : list top_item_row -> list top_item_row) (data : dataset) :
  sorts_descending sort_values ->
  List.length (item_totals (joined_df data)) <= 10 ->
  Permutation (top_items (transformed sort_values data))
              (item_totals (joined_df data)) /\
  forall i n,
    (exists r, In r (top_items (transformed sort_values data)) /\
               ti_item_id r = i /\ ti_item_name r = n) <->
    (exists j, In j (joined_df data) /\
               item_id j = Some i /\ item_name j = Some n).
Proof.
  intros Hsort Hfew.
  assert (Hperm : Permutation (top_items (transformed sort_values data))
                              (item_totals (joined_df data))).
  { simpl. unfold top_items_of. rewrite firstn_all2.
    - symmetry. apply Hsort.
    - rewrite <- (Permutation_length (sort_values_perm Hsort _)). exact Hfew. }
  split; [exact Hperm|]. intros i n.
  rewrite <- item_totals_key_present, in_map_iff. split.
  - intros (r & Hr & <- & <-). exists r. split; [reflexivity|].
    eapply Permutation_in; eassumption.
  - intros (r & Hk & Hr). inversion Hk; subst. exists r.
    split; [|split; reflexivity].
    eapply Permutation_in; [symmetry; exact Hperm|exact Hr].
Qed.

Lemma top_items_keeps_all_when_few_witness :
  sorts_descending stable_sort_desc /\
  List.length (item_totals (joined_df tied_items_data)) <= 10 /\
  Permutation (top_items (transformed stable_sort_desc tied_items_data))
              (item_totals (joined_df tied_items_data)) /\
  forall i n,
    (exists r, In r (top_items (transformed stable_sort_desc tied_items_data)) /\
               ti_item_id r = i /\ ti_item_name r = n) <->
    (exists j, In j (joined_df tied_items_data) /\
               item_id j = Some i /\ item_name j = Some n).
Proof.
  assert (Hfew : List.length (item_totals (joined_df tied_items_data)) <= 10)
    by (vm_compute; lia).
  split; [exact stable_sort_desc_ok|]. split; [exact Hfew|].
  exact (@top_items_keeps_all_when_few stable_sort_desc tied_items_data
           stable_sort_desc_ok Hfew).
Defined.

Lemma merge_nil_r {L R K} `{Key K} (kl : L -> option K) (kr : R -> option K)
    (left : list L) :
  merge kl kr left (@nil R) = [].
Proof. unfold merge. induction left as [|l t IH]; simpl; auto. Qed.

Lemma sort_values_nil (sort_values : list top_item_row -> list top_item_row) :
  sorts_descending sort_values -> sort_values [] = [].
Proof.
  intros Hsort. apply Permutation_nil. apply Hsort.
Qed.

(** X9. When one of the three source tables is empty, the join is empty
    and so are both aggregates, and no warning is due; a save of these
    results on a connected session, when no step meets a fault, leaves
    both target tables existing and empty, whatever they held. *)
Theorem empty_input_empties_tables
    (sort_values : list top_item_row -> list top_item_row) (E : env)
    (data : dataset) (w : world) :
  sorts_descending sort_values ->
  orders data = [] \/ order_items data = [] \/ menu_items data = [] ->
  transformed sort_values data = mkResults [] [] [] /\
  duplicate_warning (joined_df data) = [] /\
  null_warning (joined_df data) = [] /\
  (connected w ->
   no_fault_during_save E (stmt_no w) (transformed sort_values data) ->
   exists w', save_results E (transformed sort_values data) w = (Returned tt, w') /\
              committed w' = mkTables (Some []) (Some [])).
Proof.
  intros Hsort Hempty.
  assert (Hj : joined_df data = []).
  { unfold joined_df. destruct Hempty as [H|[H|H]]; rewrite H.
    - reflexivity.
    - rewrite merge_nil_r. reflexivity.
    - rewrite merge_nil_r. reflexivity. }
  assert (Hres : transformed sort_values data = mkResults [] [] []).
  { unfold transformed. rewrite Hj. unfold top_items_of, item_totals. simpl.
    rewrite (sort_values_nil Hsort). reflexivity. }
  split; [exact Hres|]. rewrite Hj.
  split; [reflexivity|]. split; [reflexivity|].
  intros Hc Hnf. rewrite Hres in *.
  assert (Hacc : keys_unique (mkResults [] [] [])).
  { split; simpl; constructor. }
  destruct (save_results_returns Hc Hnf Hacc) as [w' Hrun].
  exists w'. split; [exact Hrun|].
  destruct (save_results_cases E (mkResults [] [] []) Hc) as (w1 & [Hbad|Hok]).
  - destruct Hbad as (msg & e0 & tail & Hr & _). rewrite Hr in Hrun. discriminate.
  - destruct Hok as (Hr & _ & _ & _ & Happly & _).
    rewrite Hr in Hrun. inversion Hrun; subst w1.
    now apply apply_statements_of in Happly.
Qed.

Lemma empty_input_empties_tables_witness :
  let data := mkDataset [] (order_items sample_data) (menu_items sample_data) in
  let w := connected_world data yesterdays_tables in
  sorts_descending stable_sort_desc /\
  (orders data = [] \/ order_items data = [] \/ menu_items data = []) /\
  transformed stable_sort_desc data = mkResults [] [] [] /\
  duplicate_warning (joined_df data) = [] /\
  null_warning (joined_df data) = [] /\
  (connected w ->
   no_fault_during_save no_faults (stmt_no w) (transformed stable_sort_desc data) ->
   exists w', save_results no_faults (transformed stable_sort_desc data) w =
                (Returned tt, w') /\
              committed w' = mkTables (Some []) (Some [])).
Proof.
  intros data w.
  assert (He : orders data = [] \/ order_items data = [] \/ menu_items data = [])
    by (left; reflexivity).
  split; [exact stable_sort_desc_ok|]. split; [exact He|].
  exact (@empty_input_empties_tables stable_sort_desc no_faults data w
           stable_sort_desc_ok He).
Defined.

(* ================================================================== *)
(** * When the quality checks warn                                      *)
(* ================================================================== *)

Lemma count_nulls_zero {A B} (f : A -> option B) (df : list A) :
  count_nulls (map f df) = 0 <-> forall j, In j df -> is_null (f j) = false.
Proof.
  unfold count_nulls. induction df as [|j t IH]; simpl.
  - split; [intros _ j []|reflexivity].
  - destruct (is_null (f j)) eqn:Hn; simpl.
    + split; [discriminate|]. intros Hall.
      specialize (Hall j (or_introl eq_refl)). congruence.
    + rewrite IH. split.
      * intros Hall x [<-|Hx]; auto.
      * intros Hall x Hx. apply Hall. auto.
Qed.

Lemma null_counts_flag (df : list joined_row) :
  existsb (fun c => negb (snd c =? 0)) (null_counts df) = true <->
  exists j, In j df /\ has_null j = true.
Proof.
  split.
  - intros Hex. apply existsb_exists in Hex. destruct Hex as ([name n] & Hin & Hn).
    simpl in Hn. apply negb_true_iff, Nat.eqb_neq in Hn.
    assert (Hcol : forall (B : Type) (f : joined_row -> option B),
               n = count_nulls (map f df) ->
               exists j, In j df /\ is_null (f j) = true).
    { intros B f ->. destruct (existsb (fun j => is_null (f j)) df) eqn:Hex.
      - apply existsb_exists in Hex. exact Hex.
      - exfalso. apply Hn. apply count_nulls_zero. intros j Hj.
        destruct (is_null (f j)) eqn:Hnull; [|reflexivity].
        assert (existsb (fun j => is_null (f j)) df = true)
          by (apply existsb_exists; eauto).
        congruence. }
    unfold null_counts in Hin. simpl in Hin.
    destruct Hin as [Hc|[Hc|[Hc|[Hc|[Hc|[Hc|[Hc|[]]]]]]]];
      inversion Hc as [[Hname Hcount]]; symmetry in Hcount;
      apply Hcol in Hcount; destruct Hcount as (j & Hj & Hnull);
      exists j; (split; [exact Hj|]); unfold has_null; rewrite Hnull;
      rewrite ?orb_true_r; reflexivity.
  - intros (j & Hj & Hnull).
    assert (Hcol : forall (B : Type) (f : joined_row -> option B),
               is_null (f j) = true -> count_nulls (map f df) <> 0).
    { intros B f Hf Hz. rewrite count_nulls_zero in Hz.
      rewrite (Hz j Hj) in Hf. discriminate. }
    unfold null_counts. simpl. unfold has_null in Hnull.
    repeat (apply orb_true_iff in Hnull; destruct Hnull as [Hnull|Hnull]);
      apply Hcol in Hnull; apply Nat.eqb_neq in Hnull; rewrite Hnull; simpl;
      rewrite ?orb_true_r; reflexivity.
Qed.

Lemma duplicated_from_none {K} `{Key K} (column : list (option K)) :
  forall seen,
    count_true (duplicated_from seen column) = 0 <->
    NoDup column /\ forall x, In x column -> ~ In x seen.
Proof.
  induction column as [|a t IH]; intros seen; simpl.
  - split; [intros _; split; [constructor|tauto]|reflexivity].
  - unfold count_true in *. simpl.
    destruct (existsb (cell_eqb a) seen) eqn:Hex; simpl.
    + split; [discriminate|]. intros [_ Hfresh]. exfalso.
      apply existsb_exists in Hex. destruct Hex as (x & Hx & Heq).
      apply cell_eqb_eq in Heq. subst x. apply (Hfresh a); auto.
    + rewrite IH. split.
      * intros [Hnd Hfresh]. split.
        -- constructor; [|exact Hnd]. intros Ha. apply (Hfresh a Ha). simpl. auto.
        -- intros x [<-|Hx] Hin.
           ++ assert (existsb (cell_eqb a) seen = true)
                by now apply existsb_cell_eqb.
              congruence.
           ++ apply (Hfresh x Hx). simpl. auto.
      * intros [Hnd Hfresh]. inversion Hnd as [|? ? Ha Hnd']; subst. split.
        -- exact Hnd'.
        -- intros x Hx [<-|Hin]; [contradiction|]. apply (Hfresh x); auto.
Qed.

Lemma no_duplicates_flagged {K} `{Key K} (column : list (option K)) :
  count_true (duplicated column) = 0 <-> NoDup column.
Proof.
  unfold duplicated. rewrite duplicated_from_none. split; [tauto|].
  intros Hnd. split; [exact Hnd|]. intros x _ [].
Qed.

(** X11. What the quality checks add to the log: a null-values warning
    whenever some cell of a column the program names is null in the
    joined data, and a duplicate-order warning exactly when some
    order_id stands in more than one joined row; the count it reports is
    the number of rows flagged as repeats. *)
Theorem quality_warnings_when_due (df : list joined_row) (w : world) :
  exists added,
    trace (snd (_perform_data_quality_checks df w)) = added ++ trace w /\
    ((exists j, In j df /\ has_null j = true) ->
     exists cols, In (Log WARNING (MsgNullValues cols)) added) /\
    ((exists n, In (Log WARNING (MsgDuplicateOrders n)) added) <->
     ~ NoDup (map order_id df)) /\
    (forall n, In (Log WARNING (MsgDuplicateOrders n)) added ->
       n = count_true (duplicated (map order_id df)) /\ 0 < n).
Proof.
  exists (duplicate_warning df ++ null_warning df).
  rewrite quality_checks_run, <- app_assoc. split; [reflexivity|].
  unfold duplicate_warning, null_warning.
  pose proof (null_counts_flag df) as Hnull.
  pose proof (no_duplicates_flagged (map order_id df)) as Hdup.
  destruct (existsb _ (null_counts df)) eqn:Hn;
    destruct (Nat.ltb_spec 0 (count_true (duplicated (map order_id df))))
      as [Hpos|Hzero]; simpl.
  - split; [|split].
    + intros _. eauto.
    + split; [intros _ Hnd; apply Hdup in Hnd; lia|eauto].
    + intros n [Hn'|[Hn'|[]]]; inversion Hn'; subst; auto.
  - split; [|split].
    + intros _. eauto.
    + split.
      * intros [n [Hn'|[]]]. discriminate.
      * intros Hnd. exfalso. apply Hnd. apply Hdup. lia.
    + intros n [Hn'|[]]. discriminate.
  - split; [|split].
    + intros Hex. apply Hnull in Hex. discriminate.
    + split; [intros _ Hnd; apply Hdup in Hnd; lia|eauto].
    + intros n [Hn'|[]]. inversion Hn'; subst; auto.
  - split; [|split].
    + intros Hex. apply Hnull in Hex. discriminate.
    + split; [intros [n []]|].
      intros Hnd. exfalso. apply Hnd. apply Hdup. lia.
    + intros n [].
Qed.

Lemma order_lines_order_id menu items o j :
  In j (order_lines menu items o) -> order_id j = o_order_id o.
Proof.
  unfold order_lines, item_lines. rewrite in_flat_map.
  intros (i & _ & Hj). apply in_map_iff in Hj.
  destruct Hj as (m & <- & _). reflexivity.
Qed.

(** X12. An order with two or more joined rows always draws the
    duplicate-order warning: unless the library fails,
    [perform_transformations] logs it with a positive count. *)
Theorem multi_line_order_draws_duplicate_warning
    (sort_values : list top_item_row -> list top_item_row) (E : env)
    (data : dataset) (w : world) (o : order) :
  pandas_fault E = None ->
  In o (orders data) ->
  2 <= List.length (order_lines (menu_items data) (order_items data) o) ->
  exists n,
    0 < n /\
    In (Log WARNING (MsgDuplicateOrders n))
       (trace (snd (perform_transformations sort_values E data w))).
Proof.
  intros HE Ho Hlen.
  destruct (in_split _ _ Ho) as (before & after & Hsplit).
  destruct (order_lines (menu_items data) (order_items data) o)
    as [|j1 [|j2 rest]] eqn:Hlines; simpl in Hlen; try lia.
  assert (H1 : order_id j1 = o_order_id o).
  { apply (@order_lines_order_id (menu_items data) (order_items data)).
    rewrite Hlines. simpl. auto. }
  assert (H2 : order_id j2 = o_order_id o).
  { apply (@order_lines_order_id (menu_items data) (order_items data)).
    rewrite Hlines. simpl. auto. }
  assert (Hdup : 0 < count_true (duplicated (map order_id (joined_df data)))).
  { apply (@duplicated_flags_repeat _ _ _
             (map order_id (flat_map (order_lines (menu_items data)
                                        (order_items data)) before))
             []
             (map order_id rest ++
              map order_id (flat_map (order_lines (menu_items data)
                                        (order_items data)) after))
             (o_order_id o)).
    rewrite joined_df_order_lines, Hsplit, flat_map_app. simpl.
    rewrite Hlines, !map_app. simpl. rewrite H1, H2. reflexivity. }
  exists (count_true (duplicated (map order_id (joined_df data)))).
  split; [exact Hdup|].
  rewrite perform_transformations_run by exact HE. simpl. right.
  apply in_or_app. left. unfold duplicate_warning.
  apply Nat.ltb_lt in Hdup. rewrite Hdup. simpl. auto.
Qed.

Lemma multi_line_order_draws_duplicate_warning_witness :
  let data := two_mains 3000 in
  let o := mkOrder (Some "O1"%string) (Some jan1) (Some (decimal 3000)) in
  pandas_fault no_faults = None /\
  In o (orders data) /\
  2 <= List.length (order_lines (menu_items data) (order_items data) o) /\
  exists n,
    0 < n /\
    In (Log WARNING (MsgDuplicateOrders n))
       (trace (snd (perform_transformations stable_sort_desc no_faults data
                      (initial_world data empty_tables)))).
Proof.
  intros data o.
  assert (Ho : In o (orders data)) by (left; reflexivity).
  assert (Hl : 2 <= List.length (order_lines (menu_items data)
                                   (order_items data) o))
    by (vm_compute; lia).
  split; [reflexivity|]. split; [exact Ho|]. split; [exact Hl|].
  exact (@multi_line_order_draws_duplicate_warning stable_sort_desc no_faults
           data (initial_world data empty_tables) o eq_refl Ho Hl).
Defined.

(* ================================================================== *)
(** * The size of the join                                              *)
(* ================================================================== *)

Lemma list_sum_pointwise {A} (f g : A -> nat) (l : list A) :
  list_sum (map (fun x => f x + g x) l) = list_sum (map f l) + list_sum (map g l).
Proof. induction l as [|x t IH]; simpl; [reflexivity|]. rewrite IH. lia. Qed.

Lemma list_sum_swap {A B} (f : A -> B -> nat) (la : list A) (lb : list B) :
  list_sum (map (fun a => list_sum (map (f a) lb)) la) =
  list_sum (map (fun b => list_sum (map (fun a => f a b) la)) lb).
Proof.
  induction la as [|a t IH]; simpl.
  - induction lb as [|b lb IHb]; simpl; [reflexivity|exact IHb].
  - rewrite IH, <- list_sum_pointwise. reflexivity.
Qed.

Lemma length_flat_map_sum {A B} (f : A -> list B) (l : list A) :
  List.length (flat_map f l) = list_sum (map (fun x => List.length (f x)) l).
Proof.
  induction l as [|x t IH]; simpl; [reflexivity|].
  rewrite length_app, IH. reflexivity.
Qed.

Lemma length_flat_map_filter {A B} (p : A -> bool) (f : A -> list B) (l : list A) :
  List.length (flat_map f (filter p l)) =
  list_sum (map (fun x => if p x then List.length (f x) else 0) l).
Proof.
  induction l as [|x t IH]; simpl; [reflexivity|].
  destruct (p x); simpl; [rewrite length_app, IH|rewrite IH]; reflexivity.
Qed.

Lemma list_sum_if {A} (p : A -> bool) (n : nat) (l : list A) :
  list_sum (map (fun x => if p x then n else 0) l) =
  n * List.length (filter p l).
Proof.
  induction l as [|x t IH]; simpl; [lia|].
  destruct (p x); simpl; rewrite IH; lia.
Qed.

Lemma list_sum_bound {A} (f : A -> nat) (l : list A) :
  (forall x, In x l -> f x <= 1) -> list_sum (map f l) <= List.length l.
Proof.
  induction l as [|x t IH]; simpl; intros Hf; [lia|].
  assert (f x <= 1) by (apply Hf; auto).
  assert (list_sum (map f t) <= List.length t) by (apply IH; intros; apply Hf; auto).
  lia.
Qed.

Lemma list_sum_ones {A} (f : A -> nat) (l : list A) :
  (forall x, In x l -> f x = 1) -> list_sum (map f l) = List.length l.
Proof.
  induction l as [|x t IH]; simpl; intros Hf; [reflexivity|].
  rewrite (Hf x), IH; auto.
Qed.

(** Among rows with pairwise distinct keys at most one has a given key. *)
Lemma unique_key_matches {A K} `{Key K} (key : A -> option K) (p : A -> bool)
    (k : option K) (l : list A) :
  (forall x, p x = true <-> key x = k) ->
  NoDup (map key l) ->
  List.length (filter p l) <= 1 /\
  ((exists x, In x l /\ key x = k) -> List.length (filter p l) = 1).
Proof.
  intros Hp. induction l as [|a t IH]; simpl; intros Hnd.
  - split; [lia|]. intros (x & [] & _).
  - inversion Hnd as [|? ? Ha Hnd']; subst.
    destruct (IH Hnd') as [Hle Hone].
    destruct (p a) eqn:Hpa; simpl.
    + apply Hp in Hpa.
      assert (Hnone : filter p t = []).
      { destruct (filter p t) as [|y rest] eqn:Hf; [reflexivity|].
        exfalso. assert (Hy : In y (filter p t)) by (rewrite Hf; simpl; auto).
        apply filter_In in Hy. destruct Hy as [Hy Hpy]. apply Hp in Hpy.
        apply Ha. rewrite Hpa, <- Hpy. now apply in_map. }
      rewrite Hnone. simpl. split; [lia|reflexivity].
    + split; [exact Hle|]. intros (x & [<-|Hx] & Hk).
      * apply Hp in Hk. congruence.
      * apply Hone. eauto.
Qed.

(** The number of joined rows, line item by line item: each counts once
    for every pair of an order and a menu item that match it. *)
Lemma length_joined_df (data : dataset) :
  List.length (joined_df data) =
  list_sum (map (fun i =>
    List.length (filter (fun m => cell_eqb (oi_item_id i) (mi_item_id m))
                        (menu_items data)) *
    List.length (filter (fun o => cell_eqb (o_order_id o) (oi_order_id i))
                        (orders data)))
    (order_items data)).
Proof.
  rewrite joined_df_order_lines, length_flat_map_sum.
  rewrite (map_ext _
    (fun o => list_sum (map (fun i =>
       if cell_eqb (o_order_id o) (oi_order_id i)
       then List.length (filter (fun m => cell_eqb (oi_item_id i) (mi_item_id m))
                                (menu_items data))
       else 0) (order_items data)))).
  - rewrite list_sum_swap. f_equal. apply map_ext. intros i.
    apply (list_sum_if (fun o => cell_eqb (o_order_id o) (oi_order_id i))).
  - intros o. unfold order_lines. rewrite length_flat_map_filter.
    f_equal. apply map_ext. intros i. unfold item_lines.
    now rewrite length_map.
Qed.

(** X13. When no order_id occurs twice in [orders] and no item_id twice
    in [menu_items], the join has at most one row per line item, and
    exactly one per line item when every line item has its order and its
    menu item. *)
Theorem join_one_row_per_line_item (data : dataset) :
  NoDup (map o_order_id (orders data)) ->
  NoDup (map mi_item_id (menu_items data)) ->
  List.length (joined_df data) <= List.length (order_items data) /\
  (fully_matched data ->
   List.length (joined_df data) = List.length (order_items data)).
Proof.
  intros Hord Hmenu. rewrite length_joined_df.
  assert (Hm : forall i,
            List.length (filter (fun m => cell_eqb (oi_item_id i) (mi_item_id m))
                                (menu_items data)) <= 1 /\
            ((exists m, In m (menu_items data) /\ mi_item_id m = oi_item_id i) ->
             List.length (filter (fun m => cell_eqb (oi_item_id i) (mi_item_id m))
                                 (menu_items data)) = 1)).
  { intros i. apply (unique_key_matches mi_item_id); [|exact Hmenu].
    intros m. rewrite cell_eqb_eq. split; congruence. }
  assert (Ho : forall i,
            List.length (filter (fun o => cell_eqb (o_order_id o) (oi_order_id i))
                                (orders data)) <= 1 /\
            ((exists o, In o (orders data) /\ o_order_id o = oi_order_id i) ->
             List.length (filter (fun o => cell_eqb (o_order_id o) (oi_order_id i))
                                 (orders data)) = 1)).
  { intros i. apply (unique_key_matches o_order_id); [|exact Hord].
    intros o. apply cell_eqb_eq. }
  split.
  - apply list_sum_bound. intros i _.
    destruct (Hm i) as [Hm1 _], (Ho i) as [Ho1 _]. nia.
  - intros Hfull. apply list_sum_ones. intros i Hi.
    destruct (Hfull i Hi) as [Hio Him].
    destruct (Hm i) as [_ Hm1], (Ho i) as [_ Ho1].
    rewrite (Hm1 Him), (Ho1 Hio). reflexivity.
Qed.

Lemma join_one_row_per_line_item_witness :
  NoDup (map o_order_id (orders tied_items_data)) /\
  NoDup (map mi_item_id (menu_items tied_items_data)) /\
  List.length (joined_df tied_items_data) <=
    List.length (order_items tied_items_data) /\
  (fully_matched tied_items_data ->
   List.length (joined_df tied_items_data) =
     List.length (order_items tied_items_data)).
Proof.
  assert (Ho : NoDup (map o_order_id (orders tied_items_data))).
  { simpl. repeat constructor. simpl. tauto. }
  assert (Hm : NoDup (map mi_item_id (menu_items tied_items_data))).
  { simpl. repeat constructor; simpl; intuition discriminate. }
  split; [exact Ho|]. split; [exact Hm|].
  exact (@join_one_row_per_line_item tied_items_data Ho Hm).
Defined.

(* ================================================================== *)
(** * The order of the grouped rows                                     *)
(* ================================================================== *)

Section SortKeys.
Context {K : Type} `{Key K}.
Hypothesis leb_total : forall a b : K, key_leb a b = true \/ key_leb b a = true.
Hypothesis leb_trans : forall a b c : K,
  key_leb a b = true -> key_leb b c = true -> key_leb a c = true.

Lemma insert_key_sorted (x : K) (l : list K) :
  StronglySorted (fun a b => key_leb a b = true) l ->
  StronglySorted (fun a b => key_leb a b = true) (insert_key x l).
Proof.
  induction l as [|y t IH]; simpl; intros Hs.
  - constructor; constructor.
  - inversion Hs as [|? ? Ht Hy]; subst.
    destruct (key_leb x y) eqn:Hxy.
    + constructor; [exact Hs|]. constructor; [exact Hxy|].
      rewrite Forall_forall in *. intros z Hz. eapply leb_trans; eauto.
    + constructor; [apply IH; exact Ht|].
      rewrite Forall_forall in *. intros z Hz.
      apply (Permutation_in _ (Permutation_sym (insert_key_perm x t))) in Hz.
      destruct Hz as [<-|Hz]; [|auto].
      destruct (leb_total x y) as [H1|H1]; [congruence|exact H1].
Qed.

Lemma sort_keys_sorted (l : list K) :
  StronglySorted (fun a b => key_leb a b = true) (sort_keys l).
Proof.
  induction l as [|x t IH]; simpl; [constructor|].
  apply insert_key_sorted. exact IH.
Qed.
End SortKeys.

Lemma sorted_strict {A} (R : A -> A -> Prop) (l : list A) :
  NoDup l -> StronglySorted R l ->
  StronglySorted (fun a b => R a b /\ a <> b) l.
Proof.
  induction l as [|x t IH]; intros Hnd Hs; [constructor|].
  inversion Hnd as [|? ? Hx Hnd']; subst.
  inversion Hs as [|? ? Ht Hall]; subst.
  constructor; [auto|].
  rewrite Forall_forall in *. intros y Hy. split; [auto|].
  intros ->. contradiction.
Qed.

Lemma sorted_map {A B} (R : A -> A -> Prop) (R' : B -> B -> Prop)
    (f : A -> B) (l : list A) :
  (forall a b, R a b -> R' (f a) (f b)) ->
  StronglySorted R l -> StronglySorted R' (map f l).
Proof.
  intros Hf. induction 1 as [|x t Ht IH Hall]; simpl; constructor.
  - exact IH.
  - rewrite Forall_forall in *. intros y Hy.
    apply in_map_iff in Hy. destruct Hy as (z & <- & Hz). auto.
Qed.

Lemma date_leb_iff (a b : date) :
  date_leb a b = true <-> date_lt a b \/ a = b.
Proof.
  destruct a as [y1 m1 d1], b as [y2 m2 d2]. unfold date_leb, date_lt. simpl.
  destruct (Z.compare_spec y1 y2) as [Hy|Hy|Hy].
  - destruct (Z.compare_spec m1 m2) as [Hm|Hm|Hm].
    + rewrite Z.leb_le. split.
      * intros Hd. destruct (Z.eq_dec d1 d2); [right; congruence|left; lia].
      * intros [Hlt|Heq]; [lia|injection Heq; lia].
    + split; [intros _; left; lia|intros _; reflexivity].
    + split; [discriminate|]. intros [Hlt|Heq]; [lia|injection Heq; lia].
  - split; [intros _; left; lia|intros _; reflexivity].
  - split; [discriminate|]. intros [Hlt|Heq]; [lia|injection Heq; lia].
Qed.

Lemma date_lt_irrefl (a : date) : ~ date_lt a a.
Proof. unfold date_lt. lia. Qed.

Lemma date_lt_trans (a b c : date) : date_lt a b -> date_lt b c -> date_lt a c.
Proof. unfold date_lt. lia. Qed.

Lemma date_trichotomy (a b : date) : date_lt a b \/ a = b \/ date_lt b a.
Proof.
  destruct a as [y1 m1 d1], b as [y2 m2 d2]. unfold date_lt. simpl.
  destruct (Z.lt_trichotomy y1 y2) as [Hy|[->|Hy]];
    [left; lia| |right; right; lia].
  destruct (Z.lt_trichotomy m1 m2) as [Hm|[->|Hm]];
    [left; lia| |right; right; lia].
  destruct (Z.lt_trichotomy d1 d2) as [Hd|[->|Hd]];
    [left; lia|right; left; reflexivity|right; right; lia].
Qed.

Lemma string_leb_trans (a b c : string) :
  String.leb a b = true -> String.leb b c = true -> String.leb a c = true.
Proof.
  unfold String.leb.
  destruct (String.compare a b) eqn:Hab; [| |discriminate].
  - apply String.compare_eq_iff in Hab. subst b. auto.
  - destruct (String.compare b c) eqn:Hbc; [| |discriminate]; intros _ _.
    + apply String.compare_eq_iff in Hbc. subst c. now rewrite Hab.
    + apply OrderedTypeEx.String_as_OT.cmp_lt in Hab, Hbc.
      pose proof (OrderedTypeEx.String_as_OT.lt_trans _ _ _ Hab Hbc) as Hac.
      apply OrderedTypeEx.String_as_OT.cmp_lt in Hac.
      unfold OrderedTypeEx.String_as_OT.cmp in Hac. now rewrite Hac.
Qed.

(** The order [groupby] sorts (order_date, category) keys by. *)
Lemma revenue_key_leb_iff (d1 d2 : date) (c1 c2 : string) :
  key_leb (d1, c1) (d2, c2) = true <->
  date_lt d1 d2 \/ (d1 = d2 /\ String.leb c1 c2 = true).
Proof.
  change (key_leb (d1, c1) (d2, c2))
    with (if date_eqb d1 d2 then String.leb c1 c2 else date_leb d1 d2).
  destruct (date_eqb_spec d1 d2) as [->|Hne].
  - split; [auto|]. intros [Hlt|[_ Hle]]; [|exact Hle].
    exfalso. exact (date_lt_irrefl Hlt).
  - rewrite date_leb_iff. split.
    + intros [Hlt|Heq]; [auto|contradiction].
    + intros [Hlt|[Heq _]]; [auto|contradiction].
Qed.

Lemma revenue_key_leb_total (p q : date * string) :
  key_leb p q = true \/ key_leb q p = true.
Proof.
  destruct p as [d1 c1], q as [d2 c2]. rewrite !revenue_key_leb_iff.
  destruct (date_trichotomy d1 d2) as [Hlt|[->|Hgt]]; [auto| |auto].
  destruct (String.leb_total c1 c2); auto.
Qed.

Lemma revenue_key_leb_trans (p q r : date * string) :
  key_leb p q = true -> key_leb q r = true -> key_leb p r = true.
Proof.
  destruct p as [d1 c1], q as [d2 c2], r as [d3 c3].
  rewrite !revenue_key_leb_iff.
  intros [H12|[-> L12]] [H23|[-> L23]].
  - left. exact (date_lt_trans H12 H23).
  - left. exact H12.
  - left. exact H23.
  - right. split; [reflexivity|]. exact (string_leb_trans _ _ _ L12 L23).
Qed.

(** X14. [daily_revenue] comes out in key order, as [groupby] sorts its
    keys: every row stands strictly before all the rows after it, by
    order_date first and by category, in string order, within a date. *)
Theorem daily_revenue_in_key_order
    (sort_values : list top_item_row -> list top_item_row) (data : dataset) :
  StronglySorted comes_before (daily_revenue (transformed sort_values data)).
Proof.
  change (daily_revenue (transformed sort_values data))
    with (daily_revenue_of (joined_df data)).
  unfold daily_revenue_of, groupby_sum. rewrite map_map.
  apply sorted_map with
    (R := fun a b : date * string => key_leb a b = true /\ a <> b).
  - intros [d1 c1] [d2 c2] [Hle Hne]. unfold comes_before. simpl.
    apply revenue_key_leb_iff in Hle. destruct Hle as [Hlt|[-> Hle]]; [auto|].
    right. split; [reflexivity|].
    unfold String.leb in Hle. unfold String.ltb.
    destruct (String.compare c1 c2) eqn:Hc; [|reflexivity|discriminate].
    apply String.compare_eq_iff in Hc. subst c2. contradiction.
  - apply sorted_strict; [apply NoDup_group_keys|].
    unfold group_keys. apply sort_keys_sorted.
    + exact revenue_key_leb_total.
    + exact revenue_key_leb_trans.
Qed.
